(** * todo-manage: the nightly lifecycle batch of Share Todo

    The repository holds two implementations of the same Lambda handler:

    - [src/todo-manage/app.js]: the JavaScript handler.  It queries the
      Active items, flags the overdue ones one transaction per item, then
      queries the Expired items and deletes the stale ones one by one.
    - [src/app.ts] (the entry of webpack.config.js, built into dist/app.js,
      the CodeUri of template.yaml; its text follows the template in
      template.yaml): the TypeScript handler.  It scans the table once,
      builds a single list of transaction items and submits it in one
      [transactWrite].

    Both are embedded below, over one model of the data ([Todo]), of the
    JavaScript values the code inspects dynamically, of [Date], of [uuid] and
    of the DynamoDB [DocumentClient]. *)

From Stdlib Require Import ZArith List String Bool Arith Lia.
Import ListNotations.

Open Scope string_scope.
Open Scope list_scope.
Open Scope Z_scope.

(** ** JavaScript values

    Items come back from DynamoDB untyped (the TypeScript code casts
    [scanResult.Items as Array<Todo>]); the two fields the code tests
    dynamically, [complete] ([=== false]) and [carryOver] (truthiness), are
    kept as JavaScript values. *)

Inductive JsVal : Type :=
| JUndefined
| JNull
| JBool (b : bool)
| JNumber (n : Z)
| JString (s : string).

(** [a === b] on the values above. *)
Definition strict_eq (a b : JsVal) : bool :=
  match a, b with
  | JUndefined, JUndefined => true
  | JNull, JNull => true
  | JBool x, JBool y => Bool.eqb x y
  | JNumber x, JNumber y => x =? y
  | JString x, JString y => String.eqb x y
  | _, _ => false
  end.

(** The truthiness test of [if (v)] and [!v]. *)
Definition ToBoolean (v : JsVal) : bool :=
  match v with
  | JUndefined | JNull => false
  | JBool b => b
  | JNumber n => negb (n =? 0)
  | JString s => negb (String.eqb s "")
  end.

(** ** Dates

    A stored date is a string.  The code only ever parses it with
    [new Date(s)] and prints instants with [toISOString()], so a date string
    is represented by what [new Date] makes of it: the instant it denotes, in
    milliseconds since the epoch, or a string that is not a date (whose time
    value is NaN). *)

Inductive DateString : Type :=
| Iso (ms : Z)
| NotADate (s : string).

(** The time value of [new Date(s)]; [None] is NaN. *)
Definition Date_getTime (s : DateString) : option Z :=
  match s with
  | Iso ms => Some ms
  | NotADate _ => None
  end.

Definition toISOString (ms : Z) : DateString := Iso ms.

Definition msPerDay : Z := 86400000.

(** [d.setDate(d.getDate() + n)] in the time zone of the Lambda runtime
    (UTC, where every calendar day has [msPerDay] milliseconds). *)
Definition setDate_plus (d n : Z) : Z := d + n * msPerDay.

(** [a - b] on time values, NaN if either is. *)
Definition minus (a b : option Z) : option Z :=
  match a, b with
  | Some x, Some y => Some (x - y)
  | _, _ => None
  end.

(** [x < 0] and [x > 0]; both are false on NaN. *)
Definition lt0 (x : option Z) : bool :=
  match x with Some v => v <? 0 | None => false end.

Definition gt0 (x : option Z) : bool :=
  match x with Some v => 0 <? v | None => false end.

(** ** The data model (the types [Content], [Comment] and [Todo] of app.ts) *)

Record Content : Type := mkContent {
  complete : JsVal;
  content : string
}.

Record Comment : Type := mkComment {
  commentType : string;
  freeComment : string;
  contentList : list Content
}.

Record Todo : Type := mkTodo {
  id : string;
  status : Z;
  title : string;
  comment : Comment;
  url : string;
  targetAt : DateString;
  carryOver : JsVal;
  createdAt : DateString;
  updatedAt : DateString;
  updatedUser : string;
  owner : option string            (* [None] is null *)
}.

(** The two status values. *)
Definition Active : Z := 0.
Definition Expired : Z := 1.

(** ** Transaction items *)

Inductive Condition : Type :=
| attribute_not_exists (name : string).

Inductive TransactWriteItem : Type :=
| Update (Key : string) (new_status : Z)
    (* UpdateExpression "set #status = :delete", "#status" = "status" *)
| Put (Item : Todo) (ConditionExpression : option Condition)
| Delete (Key : string).

(** [item.Update?.Key?.id] and [item.Delete?.Key?.id]; [None] is undefined. *)
Definition Update_Key_id (item : TransactWriteItem) : option string :=
  match item with Update k _ => Some k | _ => None end.

Definition Delete_Key_id (item : TransactWriteItem) : option string :=
  match item with Delete k => Some k | _ => None end.

(** The primary key an item of a transaction works on. *)
Definition key_of (item : TransactWriteItem) : string :=
  match item with
  | Update k _ => k
  | Put it _ => id it
  | Delete k => k
  end.

(** [Array.prototype.includes] on arrays of ids (or undefined). *)
Definition eqb_opt (a b : option string) : bool :=
  match a, b with
  | Some x, Some y => String.eqb x y
  | None, None => true
  | _, _ => false
  end.

Definition includes (l : list (option string)) (x : option string) : bool :=
  existsb (eqb_opt x) l.

(** ** The world of one invocation

    What the handler cannot control is given by an environment: the readings
    of the wall clock, the identifiers [uuid] hands out, and whether the
    store serves each request. *)

Inductive Reply : Type :=
| Served
| Refused        (* the request fails: transport, throttling, limits *)
| NoItems.       (* a scan answered without an [Items] field *)

Record Env : Type := mkEnv {
  clock : nat -> Z;          (* the n-th [new Date()] of the run *)
  uuid : nat -> string;      (* the n-th [uuidv4()] of the run *)
  reply : nat -> Reply       (* how the n-th request is answered *)
}.

Inductive Exn : Type :=
| RequestFailed
| ValidationException
| TransactionCanceledException.

Inductive Request : Type :=
| ReqScan
| ReqQuery (value : Z)
| ReqTransactWrite (TransactItems : list TransactWriteItem)
| ReqDelete (Key : string).

Record World : Type := mkWorld {
  table : list Todo;          (* the items of the table, one per [id] *)
  reads : nat;                (* clock readings taken so far *)
  draws : nat;                (* uuids drawn so far *)
  requests : list Request;    (* requests sent so far, oldest first *)
  console : list Exn          (* what console.log has printed *)
}.

Definition calls (w : World) : nat := List.length (requests w).

Definition with_table (t : list Todo) (w : World) : World :=
  mkWorld t (reads w) (draws w) (requests w) (console w).

Definition sent (r : Request) (w : World) : World :=
  mkWorld (table w) (reads w) (draws w) (requests w ++ [r]) (console w).

(** ** Computations: state, the environment, and exceptions *)

Inductive Completion (A : Type) : Type :=
| Normal (a : A)
| Throw (e : Exn).
Arguments Normal {A} a.
Arguments Throw {A} e.

Definition Js (A : Type) : Type := Env -> World -> Completion A * World.

Definition ret {A} (a : A) : Js A := fun _ w => (Normal a, w).

Definition bind {A B} (m : Js A) (k : A -> Js B) : Js B :=
  fun env w =>
    match m env w with
    | (Normal a, w') => k a env w'
    | (Throw e, w') => (Throw e, w')
    end.

Declare Scope js_scope.
Delimit Scope js_scope with js.
Notation "x <- m ;; k" := (bind m (fun x => k))
  (at level 100, m at next level, right associativity) : js_scope.
Notation "m ;;; k" := (bind m (fun _ => k))
  (at level 100, right associativity) : js_scope.
Open Scope js_scope.

(** [try { m } catch (error) { h error }]. *)
Definition try_catch {A} (m : Js A) (h : Exn -> Js A) : Js A :=
  fun env w =>
    match m env w with
    | (Normal a, w') => (Normal a, w')
    | (Throw e, w') => h e env w'
    end.

(** [for (const x of l) { body x }]. *)
Fixpoint for_of {A} (l : list A) (body : A -> Js unit) : Js unit :=
  match l with
  | [] => ret tt
  | x :: l' => body x ;;; for_of l' body
  end.

Definition console_log (e : Exn) : Js unit :=
  fun _ w =>
    (Normal tt, mkWorld (table w) (reads w) (draws w) (requests w) (console w ++ [e])).

(** [new Date()], as its time value. *)
Definition new_Date : Js Z :=
  fun env w =>
    (Normal (clock env (reads w)),
     mkWorld (table w) (S (reads w)) (draws w) (requests w) (console w)).

Definition uuidv4 : Js string :=
  fun env w =>
    (Normal (uuid env (draws w)),
     mkWorld (table w) (reads w) (S (draws w)) (requests w) (console w)).

(** ** The DocumentClient

    The table is keyed by [id].  [scan] reads every item, [query] reads the
    items of one [status] through the index SortByTargetAt, [delete] removes
    one item, and [transactWrite] applies a list of items atomically: when
    the request is refused, when two of its items work on the same key, or
    when a condition fails, it throws and the table is left as it was. *)

Definition get (t : list Todo) (k : string) : option Todo :=
  find (fun r => String.eqb (id r) k) t.

Definition ids (t : list Todo) : list string := map id t.

(** The attributes an item carries (a null [owner] is stored as a NULL
    attribute; an item that never had an owner is not told apart). *)
Definition has_attribute (r : Todo) (name : string) : bool :=
  existsb (String.eqb name)
    ["id"; "status"; "title"; "comment"; "url"; "targetAt"; "carryOver";
     "createdAt"; "updatedAt"; "updatedUser"; "owner"].

Definition holds (c : Condition) (existing : option Todo) : bool :=
  match c, existing with
  | attribute_not_exists _, None => true
  | attribute_not_exists name, Some r => negb (has_attribute r name)
  end.

Definition condition_ok (t : list Todo) (item : TransactWriteItem) : bool :=
  match item with
  | Put it (Some c) => holds c (get t (id it))
  | _ => true
  end.

(** [set #status = :delete] on the item with that key.  On a key the table
    does not hold DynamoDB would insert a bare {id, status} item; the
    handlers only update keys they have read in the same run, and nothing
    they do before the update removes an item (see
    [AppTs_update_keys_in_snapshot] and [AppJs_expired_loop_keeps_ids]), so
    the table stays a list of full items. *)
Definition set_status (k : string) (v : Z) (t : list Todo) : list Todo :=
  map (fun r =>
         if String.eqb (id r) k then
           mkTodo (id r) v (title r) (comment r) (url r) (targetAt r)
                  (carryOver r) (createdAt r) (updatedAt r) (updatedUser r)
                  (owner r)
         else r) t.

Definition remove_key (k : string) (t : list Todo) : list Todo :=
  filter (fun r => negb (String.eqb (id r) k)) t.

(** A put replaces the item of that key, or adds one. *)
Definition put_item (it : Todo) (t : list Todo) : list Todo :=
  remove_key (id it) t ++ [it].

Definition apply_item (t : list Todo) (item : TransactWriteItem) : list Todo :=
  match item with
  | Update k v => set_status k v t
  | Put it _ => put_item it t
  | Delete k => remove_key k t
  end.

Fixpoint distinct (l : list string) : bool :=
  match l with
  | [] => true
  | x :: l' => negb (existsb (String.eqb x) l') && distinct l'
  end.

Definition refused (r : Reply) : bool :=
  match r with Refused => true | _ => false end.

Definition scan : Js (option (list Todo)) :=
  fun env w =>
    let w' := sent ReqScan w in
    match reply env (calls w) with
    | Refused => (Throw RequestFailed, w')
    | NoItems => (Normal None, w')
    | Served => (Normal (Some (table w)), w')
    end.

(** KeyConditionExpression "#key = :value" with "#key" = "status".  The
    index yields the items of one status sorted by [targetAt]; the order is
    not modelled, the items come in the order of the table. *)
Definition query (value : Z) : Js (list Todo) :=
  fun env w =>
    let w' := sent (ReqQuery value) w in
    if refused (reply env (calls w)) then (Throw RequestFailed, w')
    else (Normal (filter (fun r => status r =? value) (table w)), w').

Definition transactWrite (TransactItems : list TransactWriteItem) : Js unit :=
  fun env w =>
    let w' := sent (ReqTransactWrite TransactItems) w in
    if refused (reply env (calls w)) then (Throw RequestFailed, w')
    else if match TransactItems with [] => true | _ => false end
         then (Throw ValidationException, w')
    else if negb (distinct (map key_of TransactItems))
         then (Throw ValidationException, w')
    else if negb (forallb (condition_ok (table w)) TransactItems)
         then (Throw TransactionCanceledException, w')
    else (Normal tt, with_table (fold_left apply_item TransactItems (table w)) w').

Definition delete (Key : string) : Js unit :=
  fun env w =>
    let w' := sent (ReqDelete Key) w in
    if refused (reply env (calls w)) then (Throw RequestFailed, w')
    else (Normal tt, with_table (remove_key Key (table w)) w').

(** The constants of both handlers. *)
Definition flagDeleteDate : Z := 7.
Definition resetAddDate : Z := 3.
Definition dataDeleteDate : Z := 7.

(** The answer of the Lambda. *)
Record Response : Type := mkResponse { statusCode : Z }.

(** [Array.prototype.reduce] with an accumulator the callback pushes to. *)
Definition reduce {A B} (f : list B -> A -> list B) (init : list B) (l : list A) : list B :=
  fold_left f l init.

Definition push {B} (acc : list B) (x : B) : list B := acc ++ [x].

(** * src/todo-manage/app.js

    [setTableName], [getTableName] and [getDynamoClient] only pick the table
    and the endpoint; there is one table here. *)

Module AppJs.

(** The callback of [data.Items.reduce] in [expiredTodo]. *)
Definition expired_reducer (deleteLimit : Z) (accumulator : list Todo)
    (currentValue : Todo) : list Todo :=
  let updateDate := Date_getTime (targetAt currentValue) in
  if lt0 (minus updateDate (Some deleteLimit))
  then push accumulator currentValue
  else accumulator.

(** The object literal [carryOverComment] of the loop. *)
Definition carryOverComment (updateTodo : Todo) : Comment :=
  mkComment
    (commentType (comment updateTodo))
    (freeComment (comment updateTodo))
    (filter (fun content => strict_eq (complete content) (JBool false))
            (contentList (comment updateTodo))).

(** The body of the loop of [expiredTodo], first half: the array
    [transactItems] it builds for [updateTodo]. *)
Definition transactItems_of (updateiSOString : DateString) (updateTodo : Todo)
  : Js (list TransactWriteItem) :=
  let transactItems := [Update (id updateTodo) 1] in
  if ToBoolean (carryOver updateTodo) then
    let carryOverComment := carryOverComment updateTodo in
    if Nat.ltb 0 (List.length (contentList carryOverComment)) then
      targetDate <- new_Date ;;
      let targetDate := setDate_plus targetDate resetAddDate in
      fresh <- uuidv4 ;;
      ret (push transactItems
             (Put (mkTodo fresh
                          (status updateTodo)
                          (title updateTodo)
                          carryOverComment
                          (url updateTodo)
                          (toISOString targetDate)
                          (carryOver updateTodo)
                          (createdAt updateTodo)
                          updateiSOString
                          (updatedUser updateTodo)
                          None)
                  (Some (attribute_not_exists "id"))))
    else ret transactItems
  else ret transactItems.

(** The whole body of the loop: the [transactWrite] sits inside the
    [if (updateTodo.carryOver)] block, so the array is submitted only for a
    record that is carried over. *)
Definition expired_body (updateiSOString : DateString) (updateTodo : Todo)
  : Js unit :=
  transactItems <- transactItems_of updateiSOString updateTodo ;;
  if ToBoolean (carryOver updateTodo)
  then transactWrite transactItems
  else ret tt.

Definition expiredTodo : Js unit :=
  try_catch
    (data <- query 0 ;;
     if Nat.ltb 0 (List.length data) then
       now <- new_Date ;;
       let deleteLimit := setDate_plus now (- flagDeleteDate) in
       let updateTodoList := reduce (expired_reducer deleteLimit) [] data in
       now' <- new_Date ;;
       let updateiSOString := toISOString now' in
       for_of updateTodoList (expired_body updateiSOString)
     else ret tt)
    (fun error => console_log error).

(** The callback of [todoList.Items.reduce] in [deleteTodo]. *)
Definition delete_reducer (deleteLimit : Z) (accumulator : list string)
    (currentValue : Todo) : list string :=
  let updateDate := Date_getTime (updatedAt currentValue) in
  if lt0 (minus updateDate (Some deleteLimit))
  then push accumulator (id currentValue)
  else accumulator.

Definition deleteTodo : Js unit :=
  try_catch
    (todoList <- query 1 ;;
     if Nat.eqb (List.length todoList) 0 then ret tt
     else
       now <- new_Date ;;
       let deleteLimit := setDate_plus now (- dataDeleteDate) in
       let deleteTargetIds := reduce (delete_reducer deleteLimit) [] todoList in
       for_of deleteTargetIds (fun deleteTargetId => delete deleteTargetId))
    (fun error => console_log error).

Definition lambdaHandler : Js Response :=
  expiredTodo ;;;
  deleteTodo ;;;
  ret (mkResponse 200).

End AppJs.

(** * src/app.ts (the text after the template in template.yaml)

    As above without [setTableName], [getTableName], [getDocumentClient]. *)

Module AppTs.

Inductive CustomError : Type :=
| noData
| getError.

Definition getTodoItems : Js (list Todo + CustomError) :=
  try_catch
    (scanResult <- scan ;;
     match scanResult with
     | None => ret (inr noData)
     | Some Items => ret (inl Items)
     end)
    (fun error => console_log error ;;; ret (inr getError)).

Definition createTransactItemForStatusUpdate (todo : Todo) : TransactWriteItem :=
  Update (id todo) 1.

Definition createTransactItemForNewDedlineTodo (todo : Todo)
    (carryOverComment : Comment) : Js TransactWriteItem :=
  date <- new_Date ;;
  let updateiSOString := toISOString date in
  let date := setDate_plus date resetAddDate in
  fresh <- uuidv4 ;;
  ret (Put (mkTodo fresh
                   (status todo)
                   (title todo)
                   carryOverComment
                   (url todo)
                   (toISOString date)
                   (carryOver todo)
                   (createdAt todo)
                   updateiSOString
                   (updatedUser todo)
                   None)
           (Some (attribute_not_exists "id"))).

(** The object literal [carryOverComment] of the loop. *)
Definition carryOverComment (updateTodo : Todo) : Comment :=
  mkComment
    (commentType (comment updateTodo))
    (freeComment (comment updateTodo))
    (filter (fun content => strict_eq (complete content) (JBool false))
            (contentList (comment updateTodo))).

(** One turn of the loop of [createExpiredTransactItems]: what it pushes
    onto [transactItems]. *)
Definition expired_turn (updateTodo : Todo) : Js (list TransactWriteItem) :=
  let pushed := [createTransactItemForStatusUpdate updateTodo] in
  if negb (ToBoolean (carryOver updateTodo)) then ret pushed
  else
    let carryOverComment := carryOverComment updateTodo in
    if Nat.eqb (List.length (contentList carryOverComment)) 0 then ret pushed
    else
      item <- createTransactItemForNewDedlineTodo updateTodo carryOverComment ;;
      ret (push pushed item).

Fixpoint expired_loop (updateTodoItems : list Todo)
    (transactItems : list TransactWriteItem) : Js (list TransactWriteItem) :=
  match updateTodoItems with
  | [] => ret transactItems
  | updateTodo :: rest =>
      pushed <- expired_turn updateTodo ;;
      expired_loop rest (transactItems ++ pushed)
  end.

(** The callback of [todoItems.filter] in [createExpiredTransactItems]. *)
Definition expired_filter (deleteLimit : Z) (todo : Todo) : bool :=
  if negb (status todo =? 0) then false
  else
    let updateDate := Date_getTime (targetAt todo) in
    if gt0 (minus updateDate (Some deleteLimit)) then false
    else true.

Definition createExpiredTransactItems (todoItems : list Todo)
  : Js (list TransactWriteItem) :=
  now <- new_Date ;;
  let deleteLimit := setDate_plus now (- flagDeleteDate) in
  let updateTodoItems := filter (expired_filter deleteLimit) todoItems in
  expired_loop updateTodoItems [].

(** The callback of [todoItems.filter] in [createDeleteTransactItems]. *)
Definition delete_filter (deleteLimit : Z) (deleteIds : list (option string))
    (todo : Todo) : bool :=
  if negb (status todo =? 1) && negb (includes deleteIds (Some (id todo)))
  then false
  else
    let updateDate := Date_getTime (targetAt todo) in
    if gt0 (minus updateDate (Some deleteLimit)) then false
    else true.

Definition createDeleteTransactItems (todoItems : list Todo)
    (deleteIds : list (option string)) : Js (list TransactWriteItem) :=
  now <- new_Date ;;
  let deleteLimit := setDate_plus now (- dataDeleteDate) in
  ret (map (fun todo => Delete (id todo))
           (filter (delete_filter deleteLimit deleteIds) todoItems)).

Definition is_Update (item : TransactWriteItem) : bool :=
  match item with Update _ _ => true | _ => false end.

Definition createTransactItems (todoItems : list Todo)
  : Js (list TransactWriteItem) :=
  epiredTransactItems <- createExpiredTransactItems todoItems ;;
  let updateIds :=
    map Update_Key_id (filter is_Update epiredTransactItems) in
  deleteTransactItems <- createDeleteTransactItems todoItems updateIds ;;
  let duplicateIds :=
    map Delete_Key_id
        (filter (fun item => includes updateIds (Delete_Key_id item))
                deleteTransactItems) in
  ret (filter (fun item => negb (includes duplicateIds (Update_Key_id item)))
              epiredTransactItems
       ++ deleteTransactItems).

Definition lambdaHandler : Js Response :=
  todoItems <- getTodoItems ;;
  match todoItems with
  | inr _ => ret (mkResponse 400)
  | inl todoItems =>
      transactItems <- createTransactItems todoItems ;;
      if Nat.eqb (List.length transactItems) 0 then ret (mkResponse 200)
      else
        try_catch
          (transactWrite transactItems ;;; ret (mkResponse 200))
          (fun error => console_log error ;;; ret (mkResponse 400))
  end.

End AppTs.

(** * Concrete data for the runs evaluated below *)

Module Sample.

Definition now : Z := 1700000000000.

Definition days (n : Z) : Z := n * msPerDay.

(** The n-th identifier handed out: "new0", "new1", ... *)
Definition names (n : nat) : string :=
  "new" ++ String (Ascii.ascii_of_nat (48 + n)) "".

(** A clock that stands still and a store that serves every request. *)
Definition steady : Env := mkEnv (fun _ => now) names (fun _ => Served).

(** A clock that advances by one millisecond per reading. *)
Definition ticking : Env :=
  mkEnv (fun n => now + Z.of_nat n) names (fun _ => Served).

(** A clock set back by one millisecond after its third reading. *)
Definition set_back : Env :=
  mkEnv (fun n => if Nat.ltb n 3 then now else now - 1) names (fun _ => Served).

(** A store that refuses the third request of the run. *)
Definition third_refused : Env :=
  mkEnv (fun _ => now) names (fun n => if Nat.eqb n 2 then Refused else Served).

Definition start (t : list Todo) : World := mkWorld t 0 0 [] [].

Definition todo (i : string) (st : Z) (target updated : Z) (co : JsVal)
    (cl : list Content) : Todo :=
  mkTodo i st ("title " ++ i) (mkComment "checklist" "" cl)
         ("https://example.org/" ++ i) (Iso target) co (Iso (now - days 30))
         (Iso updated) "user" (Some "owner").

Definition open_item : Content := mkContent (JBool false) "x".
Definition done_item : Content := mkContent (JBool true) "y".

(** Scenario A: Active, due 10 days ago, no carry-over, touched yesterday. *)
Definition overdue : Todo :=
  todo "a" Active (now - days 10) (now - days 1) (JBool false) [].

(** The same with carry-over and one open sub-item. *)
Definition recurring : Todo :=
  todo "b" Active (now - days 10) (now - days 1) (JBool true)
       [done_item; open_item].

Definition recurring2 : Todo :=
  todo "c" Active (now - days 9) (now - days 1) (JBool true) [open_item].

(** Two Active records due exactly 7 days before [now], both carried over. *)
Definition due_a_week_ago (i : string) : Todo :=
  todo i Active (now - days 7) (now - days 1) (JBool true) [open_item].

(** Expired an hour ago (say by its owner), due 10 days ago. *)
Definition flagged_an_hour_ago : Todo :=
  todo "f" Expired (now - days 10) (now - 3600000) (JBool false) [].

(** Expired and untouched for 30 days, due tomorrow. *)
Definition flagged_a_month_ago : Todo :=
  todo "g" Expired (now + days 1) (now - days 30) (JBool false) [].

(** Expired, last updated exactly 7 days before [now]. *)
Definition flagged_a_week_ago : Todo :=
  todo "d" Expired (now - days 20) (now - days 7) (JBool false) [].

(** Expired, last updated 8 days before [now]. *)
Definition flagged_long_ago : Todo :=
  todo "e" Expired (now - days 20) (now - days 8) (JBool false) [].

End Sample.

(** * Notions used in the statements *)

Definition is_Put (item : TransactWriteItem) : bool :=
  match item with Put _ _ => true | _ => false end.

Definition is_Delete (item : TransactWriteItem) : bool :=
  match item with Delete _ => true | _ => false end.

(** The sub-items of a record that are not complete, in their order. *)
Definition open_items (t : Todo) : list Content :=
  filter (fun x => strict_eq (complete x) (JBool false))
         (contentList (comment t)).

(** What one turn on the expiring record [t], started at [w], may leave:
    the items it built and the world after it. *)
Definition carry_over_outcome (env : Env) (w : World) (t : Todo) (c : bool)
    (items : list TransactWriteItem) (w' : World) : Prop :=
  ((c = true /\ exists x, In x (contentList (comment t)) /\ complete x = JBool false) ->
     exists succ cond,
       items = [Update (id t) 1; Put succ cond]
       /\ contentList (comment succ) = open_items t
       /\ targetAt succ = toISOString (clock env (reads w) + 3 * msPerDay))
  /\ (~ (c = true /\ exists x, In x (contentList (comment t)) /\ complete x = JBool false) ->
     items = [Update (id t) 1] /\ w' = w).


(** The requests sent between two worlds of one run. *)
Definition new_requests (w w' : World) : list Request :=
  skipn (List.length (requests w)) (requests w').

(** The store serves every request. *)
Definition served (env : Env) : Prop := forall n, reply env n = Served.

(** A stored date that lies strictly before, or not after, an instant. *)
Definition before (limit : Z) (d : DateString) : bool :=
  match d with Iso u => u <? limit | NotADate _ => false end.

Definition not_after (limit : Z) (d : DateString) : bool :=
  match d with Iso u => u <=? limit | NotADate _ => false end.

(** The write operations of some requests, in the order sent. *)
Definition operations (reqs : list Request) : list TransactWriteItem :=
  flat_map (fun r => match r with
                     | ReqTransactWrite items => items
                     | ReqDelete k => [Delete k]
                     | _ => []
                     end) reqs.

(** The write operations of one run of a handler. *)
Definition run_operations (handler : Js Response) (env : Env) (w : World)
  : list TransactWriteItem :=
  operations (new_requests w (snd (handler env w))).

(** C3 as the specification words it, for a handler run when the clock
    shows [now]: an Expired item is deleted exactly when its [updatedAt] is
    not after [now] minus 7 days. *)
Definition C3_as_stated (handler : Js Response) (now : Z) (env : Env) (w : World)
  : Prop :=
  forall r, In r (table w) -> status r = Expired ->
    (not_after (now - 7 * msPerDay) (updatedAt r) = true
     <-> In (Delete (id r)) (run_operations handler env w)).


(** The turns of the loop of [createExpiredTransactItems] of app.ts over the
    expiring records, from world to world: each record contributes its
    status update, directly followed by its create when it has one. *)
Inductive turns (env : Env)
  : list Todo -> World -> list TransactWriteItem -> World -> Prop :=
| turns_done w :
    turns env [] w [] w
| turns_update t l w items w' :
    AppTs.expired_turn t env w = (Normal [Update (id t) 1], w) ->
    turns env l w items w' ->
    turns env (t :: l) w (Update (id t) 1 :: items) w'
| turns_update_create t l w succ cond w1 items w' :
    AppTs.expired_turn t env w = (Normal [Update (id t) 1; Put succ cond], w1) ->
    turns env l w1 items w' ->
    turns env (t :: l) w (Update (id t) 1 :: Put succ cond :: items) w'.

(** An update that a delete of the same key supersedes. *)
Definition superseded (deletes : list TransactWriteItem)
    (item : TransactWriteItem) : bool :=
  AppTs.is_Update item
  && includes (map Delete_Key_id deletes) (Update_Key_id item).

(** The ids [createTransactItems] passes on as [updateIds]. *)
Definition updateIds_of (expired : list TransactWriteItem) : list (option string) :=
  map Update_Key_id (filter AppTs.is_Update expired).

(** C4 as the specification words it, read on [createTransactItems] of
    app.ts: the kept updates, then all creates, then all deletes. *)
Definition C4_as_stated (env : Env) (w : World) (todoItems : list Todo) : Prop :=
  forall expired w1 deletes w2,
    AppTs.createExpiredTransactItems todoItems env w = (Normal expired, w1) ->
    AppTs.createDeleteTransactItems todoItems (updateIds_of expired) env w1
    = (Normal deletes, w2) ->
    fst (AppTs.createTransactItems todoItems env w)
    = Normal (filter (fun item => AppTs.is_Update item && negb (superseded deletes item))
                     expired
              ++ filter is_Put expired
              ++ deletes).



(** Nothing but the clock and the uuid counter moved. *)
Definition same_store (w w' : World) : Prop :=
  table w' = table w /\ requests w' = requests w /\ console w' = console w.


(** [succ] is the successor the handlers write for [t]: the fields copied
    from the predecessor, the comment cut down to the open sub-items, no
    owner. *)
Definition successor_of (t succ : Todo) : Prop :=
  status succ = status t
  /\ title succ = title t
  /\ url succ = url t
  /\ carryOver succ = carryOver t
  /\ createdAt succ = createdAt t
  /\ updatedUser succ = updatedUser t
  /\ owner succ = None
  /\ comment succ
     = mkComment (commentType (comment t)) (freeComment (comment t)) (open_items t).

(** Every transaction among some requests satisfies [P]. *)
Definition writes_ok (P : list TransactWriteItem -> Prop) (reqs : list Request) : Prop :=
  forall items, In (ReqTransactWrite items) reqs -> P items.


(** A transaction as the loop of [expiredTodo] of app.js submits it for one
    of the records [data]: the status update alone, or the update and the
    successor stamped [stamp]. *)
Definition js_transaction (env : Env) (data : list Todo) (stamp : DateString)
    (items : list TransactWriteItem) : Prop :=
  exists t,
    In t data
    /\ (items = [Update (id t) 1]
        \/ exists succ k j,
            items = [Update (id t) 1; Put succ (Some (attribute_not_exists "id"))]
            /\ successor_of t succ
            /\ updatedAt succ = stamp
            /\ targetAt succ = toISOString (clock env k + 3 * msPerDay)
            /\ id succ = uuid env j).

(** The records [expiredTodo] of app.js works on, started at [w]. *)
Definition js_expiring (env : Env) (w : World) : list Todo :=
  filter (fun r => before (clock env (reads w) - 7 * msPerDay) (targetAt r))
         (filter (fun r => status r =? Active) (table w)).


(** The order C4 gives, for the write operations of any handler: the
    updates, then the creates, then the deletes. *)
Definition C4_order_as_stated (handler : Js Response) (env : Env) (w : World)
  : Prop :=
  let ops := run_operations handler env w in
  ops = filter AppTs.is_Update ops ++ filter is_Put ops ++ filter is_Delete ops.

(** C7 as the specification words its last part, read on the batch of
    app.ts: all successors of one run carry the same [updatedAt]. *)
Definition C7_as_stated (env : Env) (w : World) (todoItems : list Todo) : Prop :=
  forall batch w',
    AppTs.createTransactItems todoItems env w = (Normal batch, w') ->
    forall s1 c1 s2 c2,
      In (Put s1 c1) batch -> In (Put s2 c2) batch ->
      updatedAt s1 = updatedAt s2.


(** A stored date that lies strictly after an instant; a string that is not
    a date lies after nothing. *)
Definition after (limit : Z) (d : DateString) : bool :=
  match d with Iso u => limit <? u | NotADate _ => false end.

(** The ids of the creates among some items, in their order. *)
Definition put_ids (items : list TransactWriteItem) : list string :=
  flat_map (fun item => match item with Put s _ => [id s] | _ => [] end) items.

(** [r'] is [r], or [r] with its status set to Expired. *)
Definition flagged_or_same (r r' : Todo) : Prop :=
  r' = r
  \/ r' = mkTodo (id r) Expired (title r) (comment r) (url r) (targetAt r)
                 (carryOver r) (createdAt r) (updatedAt r) (updatedUser r)
                 (owner r).

(** Every request among some requests satisfies [P]. *)
Definition requests_ok (P : Request -> Prop) (reqs : list Request) : Prop :=
  forall r, In r reqs -> P r.

(** * The configuration functions of both handlers

    [process.env] maps a name to a string, or to undefined when the variable
    is not set; an environment variable is truthy when it is set and not
    empty.  The module-level variable [tableName] is passed explicitly. *)

Definition ProcessEnv : Type := string -> option string.

Definition env_truthy (v : option string) : bool :=
  match v with
  | Some s => negb (String.eqb s "")
  | None => false
  end.

(** The options [new DocumentClient(...)] is given; [None] is the call
    without options. *)
Record ClientOptions : Type := mkClientOptions {
  endpoint : string;
  region : string;
  accessKeyId : string;
  secretAccessKey : string
}.

Definition local_options : ClientOptions :=
  mkClientOptions "http://host.docker.internal:62224" "us-fake-1" "fake" "fake".

(** The parameters of the two queries of app.js, before
    [ExpressionAttributeValues] is set. *)
Record GetParams : Type := mkGetParams {
  TableName : option string;
  KeyConditionExpression : string;
  ExpressionAttributeNames : list (string * string);
  IndexName : string
}.

Module AppJsConfig.

(** [let tableName = "Todo"]. *)
Definition tableName : option string := Some "Todo".

Definition setTableName (process_env : ProcessEnv) (tableName : option string)
  : option string :=
  if env_truthy (process_env "AWS_SAM_LOCAL") then Some "TodoTable"
  else process_env "tableName".

Definition getTableName (tableName : option string) : option string := tableName.

Definition getDynamoClient (process_env : ProcessEnv) : option ClientOptions :=
  if env_truthy (process_env "AWS_SAM_LOCAL") then Some local_options
  else None.

Definition createGetParams (tableName : option string) : GetParams :=
  mkGetParams (getTableName tableName) "#key= :value" [("#key", "status")]
              "SortByTargetAt".

End AppJsConfig.

Module AppTsConfig.

(** [let tableName = 'TodoTable']. *)
Definition tableName : option string := Some "TodoTable".

Definition setTableName (process_env : ProcessEnv) (tableName : option string)
  : option string :=
  if negb (env_truthy (process_env "AWS_SAM_LOCAL"))
     && env_truthy (process_env "tableName")
  then process_env "tableName"
  else tableName.

Definition getTableName (tableName : option string) : option string := tableName.

Definition getDocumentClient (process_env : ProcessEnv) : option ClientOptions :=
  if env_truthy (process_env "AWS_SAM_LOCAL") then Some local_options
  else None.

End AppTsConfig.

(** More data for the runs evaluated below. *)
Module Sample2.

(** Active, carried over, [targetAt] not a date. *)
Definition undated : Todo :=
  mkTodo "u" Active "title u" (mkComment "checklist" "" [Sample.open_item])
         "https://example.org/u" (NotADate "soon") (JBool true)
         (Iso (Sample.now - Sample.days 30)) (Iso (Sample.now - Sample.days 1))
         "user" None.

(** A deployed Lambda with its table name set, one without, a local run. *)
Definition deployed : ProcessEnv :=
  fun name => if String.eqb name "tableName" then Some "Todo-prod" else None.

Definition unconfigured : ProcessEnv := fun _ => None.

Definition sam_local : ProcessEnv :=
  fun name => if String.eqb name "AWS_SAM_LOCAL" then Some "true" else None.

(** A store that refuses every request. *)
Definition down : Env := mkEnv (fun _ => Sample.now) Sample.names (fun _ => Refused).

End Sample2.


(** A transaction of app.js for one of the records [data], with what the
    loop has tested before sending it. *)
Definition js_carried_transaction (data : list Todo)
    (items : list TransactWriteItem) : Prop :=
  exists t,
    In t data
    /\ ToBoolean (carryOver t) = true
    /\ (items = [Update (id t) 1]
        \/ exists succ cond, items = [Update (id t) 1; Put succ cond]).


(** [s] stands in the table as a successor [expiredTodo] of app.js wrote
    for one of the records [data]: the successor of a record that is carried
    over and has an open sub-item, as it was written or with its status set
    to Expired since. *)
Definition added_successor (data : list Todo) (s : Todo) : Prop :=
  exists t s0,
    In t data
    /\ ToBoolean (carryOver t) = true
    /\ open_items t <> []
    /\ successor_of t s0
    /\ flagged_or_same s0 s.


(** One request sent to the store on its own. *)
Definition perform (q : Request) : Js unit :=
  match q with
  | ReqScan => scan ;;; ret tt
  | ReqQuery value => query value ;;; ret tt
  | ReqTransactWrite TransactItems => transactWrite TransactItems
  | ReqDelete Key => delete Key
  end.

(** Requests sent one after the other, each on what the earlier ones left:
    a request that fails has its exception logged, and the next one is sent
    all the same.  Nothing is ever taken back. *)
Definition one_by_one (reqs : list Request) : Js unit :=
  for_of reqs (fun q => try_catch (perform q) (fun error => console_log error)).



(** * Properties *)

(** ** Computations *)

Lemma bind_normal {A B} (m : Js A) (k : A -> Js B) env w a w' :
  m env w = (Normal a, w') -> bind m k env w = k a env w'.
Proof. intros H. unfold bind. now rewrite H. Qed.

Lemma bind_throw {A B} (m : Js A) (k : A -> Js B) env w e w' :
  m env w = (Throw e, w') -> bind m k env w = (Throw e, w').
Proof. intros H. unfold bind. now rewrite H. Qed.

Lemma reduce_push_filter {A} (p : A -> bool) (l : list A) (init : list A) :
  reduce (fun acc x => if p x then push acc x else acc) init l
  = init ++ filter p l.
Proof.
  unfold reduce. revert init.
  induction l as [|x l IH]; intros init; simpl.
  - now rewrite app_nil_r.
  - rewrite IH. destruct (p x); unfold push; simpl.
    + now rewrite <- app_assoc.
    + reflexivity.
Qed.

Lemma reduce_push_filter_map {A B} (p : A -> bool) (f : A -> B) (l : list A)
    (init : list B) :
  reduce (fun acc x => if p x then push acc (f x) else acc) init l
  = init ++ map f (filter p l).
Proof.
  unfold reduce. revert init.
  induction l as [|x l IH]; intros init; simpl.
  - now rewrite app_nil_r.
  - rewrite IH. destruct (p x); unfold push; simpl.
    + now rewrite <- app_assoc.
    + reflexivity.
Qed.

(** ** The carry-over filter *)

Lemma strict_eq_false_iff (v : JsVal) :
  strict_eq v (JBool false) = true <-> v = JBool false.
Proof.
  destruct v as [| |b|n|s]; simpl; split; try discriminate; try congruence.
  - destruct b; simpl; congruence.
  - intros H. injection H as ->. reflexivity.
Qed.

(** C10.  In both handlers the successor's [contentList] holds exactly the
    sub-items of the predecessor whose [complete] is the boolean [false]:
    a sub-item whose [complete] is missing or undefined, [null], [0], the
    string ["false"] or [true] is left out. *)
Theorem C10_only_strictly_false_is_carried (t : Todo) (x : Content) (s : string) :
  (In x (contentList (AppJs.carryOverComment t))
     <-> In x (contentList (comment t)) /\ complete x = JBool false)
  /\ (In x (contentList (AppTs.carryOverComment t))
     <-> In x (contentList (comment t)) /\ complete x = JBool false)
  /\ Forall (fun v =>
               ~ In (mkContent v s) (contentList (AppJs.carryOverComment t))
               /\ ~ In (mkContent v s) (contentList (AppTs.carryOverComment t)))
            [JUndefined; JNull; JNumber 0; JString "false"; JBool true].
Proof.
  assert (E : forall y l,
             In y (filter (fun c => strict_eq (complete c) (JBool false)) l)
             <-> In y l /\ complete y = JBool false).
  { intros y l. rewrite filter_In, strict_eq_false_iff. tauto. }
  split; [apply E|]. split; [apply E|].
  repeat constructor; simpl; intros Hin; apply E in Hin;
    destruct Hin as [_ Hc]; discriminate Hc.
Qed.

(** ** Carry-over *)

Lemma open_items_nil_iff (t : Todo) :
  open_items t = [] <->
  ~ exists x, In x (contentList (comment t)) /\ complete x = JBool false.
Proof.
  unfold open_items. split.
  - intros E [x [Hin Hc]].
    assert (In x (filter (fun y => strict_eq (complete y) (JBool false))
                         (contentList (comment t)))) as Hf.
    { apply filter_In. split; [exact Hin|]. now apply strict_eq_false_iff. }
    rewrite E in Hf. exact Hf.
  - intros N.
    destruct (filter _ _) as [|x l] eqn:E; [reflexivity|]. exfalso. apply N.
    assert (In x (x :: l)) as Hx by now left.
    rewrite <- E in Hx. apply filter_In in Hx. destruct Hx as [Hin Hc].
    exists x. split; [exact Hin|]. now apply strict_eq_false_iff.
Qed.

Lemma AppTs_expired_turn_cases (t : Todo) env w :
  (ToBoolean (carryOver t) = true /\ open_items t <> []
   /\ AppTs.expired_turn t env w =
      (Normal [Update (id t) 1;
               Put (mkTodo (uuid env (draws w)) (status t) (title t)
                           (AppTs.carryOverComment t) (url t)
                           (toISOString (setDate_plus (clock env (reads w)) resetAddDate))
                           (carryOver t) (createdAt t)
                           (toISOString (clock env (reads w)))
                           (updatedUser t) None)
                   (Some (attribute_not_exists "id"))],
       mkWorld (table w) (S (reads w)) (S (draws w)) (requests w) (console w)))
  \/ ((ToBoolean (carryOver t) = false \/ open_items t = [])
      /\ AppTs.expired_turn t env w = (Normal [Update (id t) 1], w)).
Proof.
  unfold AppTs.expired_turn, AppTs.createTransactItemForStatusUpdate.
  assert (E : contentList (AppTs.carryOverComment t) = open_items t)
    by reflexivity.
  rewrite E.
  destruct (ToBoolean (carryOver t)) eqn:Ec; cbn [negb].
  - destruct (open_items t) as [|x l] eqn:Eo; cbn [List.length Nat.eqb].
    + right. split; [now right|reflexivity].
    + left. split; [reflexivity|]. split; [discriminate|]. reflexivity.
  - right. split; [now left|reflexivity].
Qed.

Lemma AppJs_transactItems_of_cases (u : DateString) (t : Todo) env w :
  (ToBoolean (carryOver t) = true /\ open_items t <> []
   /\ AppJs.transactItems_of u t env w =
      (Normal [Update (id t) 1;
               Put (mkTodo (uuid env (draws w)) (status t) (title t)
                           (AppJs.carryOverComment t) (url t)
                           (toISOString (setDate_plus (clock env (reads w)) resetAddDate))
                           (carryOver t) (createdAt t) u
                           (updatedUser t) None)
                   (Some (attribute_not_exists "id"))],
       mkWorld (table w) (S (reads w)) (S (draws w)) (requests w) (console w)))
  \/ ((ToBoolean (carryOver t) = false \/ open_items t = [])
      /\ AppJs.transactItems_of u t env w = (Normal [Update (id t) 1], w)).
Proof.
  unfold AppJs.transactItems_of.
  assert (E : contentList (AppJs.carryOverComment t) = open_items t)
    by reflexivity.
  rewrite E.
  destruct (ToBoolean (carryOver t)) eqn:Ec.
  - destruct (open_items t) as [|x l] eqn:Eo; cbn [List.length Nat.ltb Nat.leb].
    + right. split; [now right|reflexivity].
    + left. split; [reflexivity|]. split; [discriminate|]. reflexivity.
  - right. split; [now left|reflexivity].
Qed.

(** C2.  For an expiring record whose [carryOver] is the boolean [c], both
    handlers build a create exactly when [c] is true and some sub-item has
    [complete == false]; it is then the one create of the turn, its
    [contentList] is the predecessor's open sub-items in their order and its
    [targetAt] is the clock reading of that moment plus 3 days.  Otherwise
    the turn builds the status update alone and reads nothing. *)
Theorem C2_carry_over_generation (env : Env) (w : World) (u : DateString)
    (t : Todo) (c : bool) :
  carryOver t = JBool c ->
  (exists items w',
      AppTs.expired_turn t env w = (Normal items, w')
      /\ carry_over_outcome env w t c items w')
  /\ (exists items w',
      AppJs.transactItems_of u t env w = (Normal items, w')
      /\ carry_over_outcome env w t c items w').
Proof.
  intros Hc.
  assert (Hb : ToBoolean (carryOver t) = c) by now rewrite Hc.
  assert (K : forall items w',
             (ToBoolean (carryOver t) = true /\ open_items t <> []
              /\ exists succ cond,
                  items = [Update (id t) 1; Put succ cond]
                  /\ contentList (comment succ) = open_items t
                  /\ targetAt succ
                     = toISOString (setDate_plus (clock env (reads w)) resetAddDate))
             \/ ((ToBoolean (carryOver t) = false \/ open_items t = [])
                 /\ items = [Update (id t) 1] /\ w' = w) ->
             carry_over_outcome env w t c items w').
  { intros items w' [[H1 [H2 H3]]|[H1 [H2 H3]]]; split.
    - intros _. exact H3.
    - intros N. exfalso. apply N. split; [congruence|].
      destruct (open_items t) eqn:Eo; [congruence|].
      assert (~ ~ exists x, In x (contentList (comment t))
                            /\ complete x = JBool false) as NN.
      { intros M. apply open_items_nil_iff in M. congruence. }
      destruct (filter (fun x => strict_eq (complete x) (JBool false))
                       (contentList (comment t))) as [|y l'] eqn:Ef.
      + unfold open_items in Eo. congruence.
      + exists y. assert (In y (y :: l')) as Hy by now left.
        rewrite <- Ef in Hy. apply filter_In in Hy.
        split; [tauto|]. now apply strict_eq_false_iff.
    - intros [Hct Hex]. exfalso. destruct H1 as [H1|H1]; [congruence|].
      apply open_items_nil_iff in H1. now apply H1.
    - intros _. now split. }
  split.
  - destruct (AppTs_expired_turn_cases t env w) as [[H1 [H2 H3]]|[H1 H3]];
      eexists; eexists; (split; [exact H3|]); apply K.
    + left. split; [exact H1|]. split; [exact H2|].
      eexists; eexists. split; [reflexivity|]. split; reflexivity.
    + right. split; [exact H1|]. now split.
  - destruct (AppJs_transactItems_of_cases u t env w) as [[H1 [H2 H3]]|[H1 H3]];
      eexists; eexists; (split; [exact H3|]); apply K.
    + left. split; [exact H1|]. split; [exact H2|].
      eexists; eexists. split; [reflexivity|]. split; reflexivity.
    + right. split; [exact H1|]. now split.
Qed.

(** C2 at a record with carry-over and one open sub-item. *)
Lemma C2_carry_over_generation_witness :
  carryOver Sample.recurring = JBool true
  /\ (exists items w',
         AppTs.expired_turn Sample.recurring Sample.steady (Sample.start [Sample.recurring])
         = (Normal items, w')
         /\ carry_over_outcome Sample.steady (Sample.start [Sample.recurring])
                               Sample.recurring true items w')
  /\ (exists items w',
         AppJs.transactItems_of (Iso Sample.now) Sample.recurring Sample.steady
                                (Sample.start [Sample.recurring])
         = (Normal items, w')
         /\ carry_over_outcome Sample.steady (Sample.start [Sample.recurring])
                               Sample.recurring true items w').
Proof.
  split; [reflexivity|].
  apply (C2_carry_over_generation Sample.steady (Sample.start [Sample.recurring])
           (Iso Sample.now) Sample.recurring true).
  reflexivity.
Defined.

(** ** Expiry, scenario A *)

(** C1.  Scenario A at work: one Active record due 10 days ago, touched
    yesterday, no carry-over, threshold 7 days.  The specification expects
    the batch [UpdateStatus(a, Expired)].  app.ts submits the single item
    [Delete a] and the record is gone; app.js builds the update and never
    submits it, the record stays Active. *)
Theorem C1_scenario_A_runs :
  fst (AppTs.createTransactItems [Sample.overdue] Sample.steady
         (Sample.start [Sample.overdue]))
  = Normal [Delete "a"]
  /\ (let w' := snd (AppTs.lambdaHandler Sample.steady (Sample.start [Sample.overdue])) in
      requests w' = [ReqScan; ReqTransactWrite [Delete "a"]] /\ table w' = [])
  /\ fst (AppJs.transactItems_of (Iso Sample.now) Sample.overdue Sample.steady
            (Sample.start [Sample.overdue]))
     = Normal [Update "a" Expired]
  /\ (let w' := snd (AppJs.lambdaHandler Sample.steady (Sample.start [Sample.overdue])) in
      requests w' = [ReqQuery 0; ReqQuery 1] /\ table w' = [Sample.overdue]).
Proof. vm_compute. repeat split; reflexivity. Qed.

(** ** Deletion in app.js *)

Lemma new_requests_app (w w' : World) (l : list Request) :
  requests w' = requests w ++ l -> new_requests w w' = l.
Proof.
  intros E. unfold new_requests. rewrite E.
  rewrite skipn_app, skipn_all, Nat.sub_diag. reflexivity.
Qed.

Lemma for_of_delete_served (env : Env) (l : list string) :
  served env ->
  forall w, exists w',
    for_of l delete env w = (Normal tt, w')
    /\ requests w' = requests w ++ map ReqDelete l
    /\ table w' = fold_left (fun t k => remove_key k t) l (table w)
    /\ reads w' = reads w /\ draws w' = draws w /\ console w' = console w.
Proof.
  intros Hs. induction l as [|k l IH]; intros w; simpl.
  - exists w. rewrite app_nil_r. repeat split; reflexivity.
  - unfold bind at 1. unfold delete at 1. rewrite Hs. simpl.
    destruct (IH (with_table (remove_key k (table w)) (sent (ReqDelete k) w)))
      as [w' [E [Hr [Ht [H1 [H2 H3]]]]]].
    exists w'. split; [exact E|]. simpl in *.
    rewrite Hr, <- app_assoc. repeat split; assumption.
Qed.

Lemma lt0_minus_before (d : DateString) (limit : Z) :
  lt0 (minus (Date_getTime d) (Some limit)) = before limit d.
Proof.
  destruct d as [u|s]; simpl; [|reflexivity].
  destruct (u - limit <? 0) eqn:E1, (u <? limit) eqn:E2; try reflexivity;
    [apply Z.ltb_lt in E1; apply Z.ltb_ge in E2|
     apply Z.ltb_ge in E1; apply Z.ltb_lt in E2]; lia.
Qed.

Lemma delete_reducer_filter (limit : Z) (l : list Todo) :
  reduce (AppJs.delete_reducer limit) [] l
  = map id (filter (fun r => before limit (updatedAt r)) l).
Proof.
  unfold AppJs.delete_reducer.
  rewrite (reduce_push_filter_map
             (fun r => lt0 (minus (Date_getTime (updatedAt r)) (Some limit))) id).
  simpl. f_equal. apply filter_ext. intros r. apply lt0_minus_before.
Qed.

(** C3, as the code has it.  When the store serves every request,
    [deleteTodo] of app.js reads the Expired items and then deletes, in the
    order read, exactly those whose [updatedAt] lies strictly before the
    clock reading minus 7 days. *)
Theorem C3_delete_strictly_older (env : Env) (w : World) :
  served env ->
  exists todoList w1 w',
    query Expired env w = (Normal todoList, w1)
    /\ (forall r, In r todoList <-> In r (table w) /\ status r = Expired)
    /\ AppJs.deleteTodo env w = (Normal tt, w')
    /\ new_requests w w'
       = ReqQuery Expired
           :: map (fun r => ReqDelete (id r))
                  (filter (fun r => before (clock env (reads w) - 7 * msPerDay)
                                           (updatedAt r))
                          todoList).
Proof.
  intros Hs.
  assert (Q : query Expired env w
              = (Normal (filter (fun r => status r =? Expired) (table w)),
                 sent (ReqQuery Expired) w)).
  { unfold query. now rewrite Hs. }
  eexists; eexists. 
  assert (M : forall r, In r (filter (fun r => status r =? Expired) (table w))
                        <-> In r (table w) /\ status r = Expired).
  { intros r. rewrite filter_In, Z.eqb_eq. tauto. }
  cut (exists w',
          AppJs.deleteTodo env w = (Normal tt, w')
          /\ new_requests w w'
             = ReqQuery Expired
                 :: map (fun r => ReqDelete (id r))
                        (filter (fun r => before (clock env (reads w) - 7 * msPerDay)
                                                 (updatedAt r))
                                (filter (fun r => status r =? Expired) (table w)))).
  { intros [w' [D N]]. exists w'. split; [exact Q|]. split; [exact M|].
    split; [exact D|exact N]. }
  unfold AppJs.deleteTodo, try_catch.
  change 1 with Expired. rewrite (bind_normal _ _ _ _ _ _ Q).
  destruct (filter (fun r => status r =? Expired) (table w)) as [|r0 l0] eqn:El.
  - cbn. eexists. split; [reflexivity|]. apply new_requests_app. reflexivity.
  - cbn [List.length Nat.eqb].
    unfold bind at 1. unfold new_Date at 1.
    rewrite delete_reducer_filter.
    change (fun deleteTargetId : string => delete deleteTargetId) with delete.
    match goal with
    | |- context [for_of ?l _ env ?w1] =>
        destruct (for_of_delete_served env l Hs w1) as [w' [E [Hr _]]]
    end.
    rewrite E. exists w'. split; [reflexivity|].
    apply new_requests_app. rewrite Hr. cbn [requests sent].
    rewrite <- app_assoc. cbn [app]. rewrite map_map.
    unfold setDate_plus, dataDeleteDate, reads.
    replace (clock env (let (_, reads, _, _, _) := w in reads) + - (7) * msPerDay)
      with (clock env (let (_, reads, _, _, _) := w in reads) - 7 * msPerDay) by lia.
    reflexivity.
Qed.

(** An item last updated exactly 7 days ago is not deleted by app.js; an
    item updated an hour ago is deleted by app.ts, which looks at its
    [targetAt]. *)
Lemma C3_boundary_counterexample :
  ~ C3_as_stated AppJs.lambdaHandler Sample.now Sample.steady
      (Sample.start [Sample.flagged_a_week_ago])
  /\ ~ C3_as_stated AppTs.lambdaHandler Sample.now Sample.steady
        (Sample.start [Sample.flagged_an_hour_ago]).
Proof.
  split; intros H.
  - specialize (H Sample.flagged_a_week_ago (or_introl eq_refl) eq_refl).
    destruct H as [H _]. specialize (H eq_refl).
    vm_compute in H. exact H.
  - specialize (H Sample.flagged_an_hour_ago (or_introl eq_refl) eq_refl).
    destruct H as [_ H]. assert (X : false = true); [|discriminate X].
    apply H. vm_compute. left. reflexivity.
Qed.

(** Of two Expired items, updated 7 and 8 days ago, the second is deleted. *)
Lemma C3_delete_strictly_older_witness :
  served Sample.steady
  /\ exists todoList w1 w',
      query Expired Sample.steady
        (Sample.start [Sample.flagged_a_week_ago; Sample.flagged_long_ago])
      = (Normal todoList, w1)
      /\ (forall r, In r todoList
                    <-> In r [Sample.flagged_a_week_ago; Sample.flagged_long_ago]
                        /\ status r = Expired)
      /\ AppJs.deleteTodo Sample.steady
           (Sample.start [Sample.flagged_a_week_ago; Sample.flagged_long_ago])
         = (Normal tt, w')
      /\ new_requests
           (Sample.start [Sample.flagged_a_week_ago; Sample.flagged_long_ago]) w'
         = ReqQuery Expired
             :: map (fun r => ReqDelete (id r))
                    (filter (fun r => before (Sample.now - 7 * msPerDay) (updatedAt r))
                            todoList).
Proof.
  split; [intros n; reflexivity|].
  apply (C3_delete_strictly_older Sample.steady
           (Sample.start [Sample.flagged_a_week_ago; Sample.flagged_long_ago])).
  intros n. reflexivity.
Defined.

(** ** The batch of app.ts *)

Lemma expired_loop_turns (env : Env) (l : list Todo) :
  forall acc w, exists items w',
    AppTs.expired_loop l acc env w = (Normal (acc ++ items), w')
    /\ turns env l w items w'.
Proof.
  induction l as [|t l IH]; intros acc w.
  - exists [], w. simpl. rewrite app_nil_r. split; [reflexivity|constructor].
  - cbn [AppTs.expired_loop].
    destruct (AppTs_expired_turn_cases t env w) as [[_ [_ H]]|[_ H]];
      rewrite (bind_normal _ _ _ _ _ _ H);
      match goal with
      | |- context [AppTs.expired_loop l ?a env ?w1] =>
          destruct (IH a w1) as [items [w' [E T]]]
      end;
      rewrite E, <- app_assoc; eexists; eexists;
      (split; [reflexivity|]).
    + eapply turns_update_create; [exact H|exact T].
    + eapply turns_update; [exact H|exact T].
Qed.

Lemma turns_items_shape (env : Env) l w items w' :
  turns env l w items w' ->
  Forall (fun item => is_Delete item = false) items
  /\ filter AppTs.is_Update items = map (fun t => Update (id t) 1) l.
Proof.
  induction 1 as [w|t l w items w' H T [IH1 IH2]|t l w succ cond w1 items w' H T [IH1 IH2]];
    simpl.
  - split; constructor.
  - split; [constructor; [reflexivity|exact IH1]|now rewrite IH2].
  - split; [repeat constructor; exact IH1|now rewrite IH2].
Qed.

Lemma includes_map_Delete_Key_id (dels : list TransactWriteItem) :
  Forall (fun d => is_Delete d = true) dels ->
  includes (map Delete_Key_id dels) None = false.
Proof.
  induction 1 as [|d dels Hd _ IH]; simpl; [reflexivity|].
  destruct d; try discriminate. simpl. exact IH.
Qed.

Lemma includes_In (l : list (option string)) (x : option string) :
  includes l x = true <-> In x l.
Proof.
  unfold includes. rewrite existsb_exists. split.
  - intros [y [Hy E]]. destruct x as [a|], y as [b|]; simpl in E;
      try discriminate; [apply String.eqb_eq in E; subst|]; exact Hy.
  - intros H. exists x. split; [exact H|].
    destruct x as [a|]; simpl; [apply String.eqb_refl|reflexivity].
Qed.

(** The filter of the last statement of [createTransactItems] drops exactly
    the superseded updates. *)
Lemma duplicate_filter_superseded (expired deletes : list TransactWriteItem) :
  Forall (fun d => is_Delete d = true) deletes ->
  forall item, In item expired ->
    includes (map Delete_Key_id
                (filter (fun d => includes (updateIds_of expired) (Delete_Key_id d))
                        deletes))
             (Update_Key_id item)
    = superseded deletes item.
Proof.
  intros Hd item Hin. unfold superseded.
  destruct item as [k v|it c|k]; cbn [AppTs.is_Update Update_Key_id andb].
  - apply eq_true_iff_eq. rewrite !includes_In, !in_map_iff. split.
    + intros [d [E Hf]]. apply filter_In in Hf. exists d. tauto.
    + intros [d [E Hf]]. exists d. split; [exact E|].
      apply filter_In. split; [exact Hf|].
      rewrite E. apply includes_In. unfold updateIds_of.
      apply in_map_iff. exists (Update k v). split; [reflexivity|].
      apply filter_In. now split.
  - apply includes_map_Delete_Key_id.
    apply Forall_forall. intros d Hf. apply filter_In in Hf.
    rewrite Forall_forall in Hd. now apply Hd.
  - apply includes_map_Delete_Key_id.
    apply Forall_forall. intros d Hf. apply filter_In in Hf.
    rewrite Forall_forall in Hd. now apply Hd.
Qed.

Lemma filter_Put_not_superseded (deletes expired : list TransactWriteItem) :
  filter is_Put (filter (fun item => negb (superseded deletes item)) expired)
  = filter is_Put expired.
Proof.
  induction expired as [|item l IH]; [reflexivity|].
  destruct item as [k v|it c|k]; simpl.
  - destruct (negb _); simpl; exact IH.
  - now rewrite IH.
  - exact IH.
Qed.

Lemma createDeleteTransactItems_eq (todoItems : list Todo)
    (deleteIds : list (option string)) env w :
  AppTs.createDeleteTransactItems todoItems deleteIds env w
  = (Normal (map (fun t => Delete (id t))
                 (filter (AppTs.delete_filter (clock env (reads w) - 7 * msPerDay)
                                              deleteIds)
                         todoItems)),
     snd (new_Date env w)).
Proof.
  unfold AppTs.createDeleteTransactItems, bind, new_Date, ret. cbn [snd].
  replace (setDate_plus (clock env (reads w)) (- dataDeleteDate))
    with (clock env (reads w) - 7 * msPerDay)
    by (unfold setDate_plus, dataDeleteDate; lia).
  reflexivity.
Qed.

Lemma createExpiredTransactItems_turns (todoItems : list Todo) env w :
  exists expired w1,
    AppTs.createExpiredTransactItems todoItems env w = (Normal expired, w1)
    /\ turns env
         (filter (AppTs.expired_filter (clock env (reads w) - 7 * msPerDay)) todoItems)
         (snd (new_Date env w)) expired w1.
Proof.
  unfold AppTs.createExpiredTransactItems, bind, new_Date. cbn [snd].
  replace (setDate_plus (clock env (reads w)) (- flagDeleteDate))
    with (clock env (reads w) - 7 * msPerDay)
    by (unfold setDate_plus, flagDeleteDate; lia).
  match goal with
  | |- context [AppTs.expired_loop ?l [] env ?w0] =>
      destruct (expired_loop_turns env l [] w0) as [expired [w1 [E T]]]
  end.
  exists expired, w1. split; [exact E|exact T].
Qed.

(** The shape of what [createTransactItems] returns. *)
Lemma createTransactItems_structure (env : Env) (w : World)
    (todoItems : list Todo) :
  exists expired w1 deletes w2,
    AppTs.createExpiredTransactItems todoItems env w = (Normal expired, w1)
    /\ turns env
         (filter (AppTs.expired_filter (clock env (reads w) - 7 * msPerDay)) todoItems)
         (snd (new_Date env w)) expired w1
    /\ AppTs.createDeleteTransactItems todoItems (updateIds_of expired) env w1
       = (Normal deletes, w2)
    /\ deletes
       = map (fun t => Delete (id t))
             (filter (AppTs.delete_filter (clock env (reads w1) - 7 * msPerDay)
                                          (updateIds_of expired))
                     todoItems)
    /\ AppTs.createTransactItems todoItems env w
       = (Normal (filter (fun item => negb (superseded deletes item)) expired
                  ++ deletes), w2)
    /\ filter is_Put (filter (fun item => negb (superseded deletes item)) expired
                      ++ deletes)
       = filter is_Put expired.
Proof.
  destruct (createExpiredTransactItems_turns todoItems env w)
    as [expired [w1 [E T]]].
  pose proof (createDeleteTransactItems_eq todoItems (updateIds_of expired) env w1)
    as D.
  set (deletes := map (fun t => Delete (id t)) (filter _ todoItems)) in D.
  exists expired, w1, deletes, (snd (new_Date env w1)).
  assert (Hd : Forall (fun d => is_Delete d = true) deletes).
  { apply Forall_forall. intros d Hin. apply in_map_iff in Hin.
    destruct Hin as [t [<- _]]. reflexivity. }
  split; [exact E|]. split; [exact T|]. split; [exact D|].
  split; [reflexivity|]. split.
  - unfold AppTs.createTransactItems.
    rewrite (bind_normal _ _ _ _ _ _ E).
    fold (updateIds_of expired).
    rewrite (bind_normal _ _ _ _ _ _ D).
    unfold ret. f_equal. f_equal. f_equal.
    apply filter_ext_in. intros item Hin. f_equal.
    apply duplicate_filter_superseded; assumption.
  - rewrite filter_app, filter_Put_not_superseded.
    replace (filter is_Put deletes) with (@nil TransactWriteItem).
    + apply app_nil_r.
    + symmetry. clear -Hd. induction Hd as [|d l H _ IH]; [reflexivity|].
      destruct d; try discriminate. simpl. exact IH.
Qed.



(** Two carried-over records whose updates survive: the operations come as
    update, create, update, create.  In app.ts an update survives only when
    the clock was set back between the two readings of the limits (see
    [AppTs_no_update_survives]); app.js sends them so in every run. *)
Lemma C4_interleaved_counterexample :
  ~ C4_as_stated Sample.set_back
      (Sample.start [Sample.due_a_week_ago "b"; Sample.due_a_week_ago "c"])
      [Sample.due_a_week_ago "b"; Sample.due_a_week_ago "c"]
  /\ ~ C4_order_as_stated AppTs.lambdaHandler Sample.set_back
        (Sample.start [Sample.due_a_week_ago "b"; Sample.due_a_week_ago "c"])
  /\ ~ C4_order_as_stated AppJs.lambdaHandler Sample.steady
        (Sample.start [Sample.recurring; Sample.recurring2]).
Proof.
  split; [|split]; intros H.
  - specialize (H _ _ _ _ eq_refl eq_refl).
    vm_compute in H. discriminate H.
  - vm_compute in H. discriminate H.
  - vm_compute in H. discriminate H.
Qed.

(** ** Failures *)


Lemma same_store_refl (w : World) : same_store w w.
Proof. repeat split. Qed.

Lemma same_store_trans (w1 w2 w3 : World) :
  same_store w1 w2 -> same_store w2 w3 -> same_store w1 w3.
Proof.
  intros [A1 [A2 A3]] [B1 [B2 B3]]. repeat split; congruence.
Qed.

Lemma turns_same_store (env : Env) l w items w' :
  turns env l w items w' -> same_store w w'.
Proof.
  induction 1 as [w|t l w items w' H T IH|t l w succ cond w1 items w' H T IH].
  - apply same_store_refl.
  - exact IH.
  - apply same_store_trans with w1; [|exact IH].
    destruct (AppTs_expired_turn_cases t env w) as [[_ [_ E]]|[_ E]];
      rewrite E in H; inversion H; subst; repeat split.
Qed.

Lemma createTransactItems_same_store (todoItems : list Todo) env w :
  exists batch w',
    AppTs.createTransactItems todoItems env w = (Normal batch, w')
    /\ same_store w w'.
Proof.
  destruct (createTransactItems_structure env w todoItems)
    as [expired [w1 [deletes [w2 [_ [T [D [_ [E _]]]]]]]]].
  eexists; eexists. split; [exact E|].
  apply turns_same_store in T.
  rewrite createDeleteTransactItems_eq in D. inversion D; subst.
  apply same_store_trans with w1.
  - apply same_store_trans with (snd (new_Date env w)); [repeat split|exact T].
  - repeat split.
Qed.

(** A transaction is all or nothing. *)
Lemma transactWrite_cases (items : list TransactWriteItem) env w :
  (exists e, transactWrite items env w = (Throw e, sent (ReqTransactWrite items) w))
  \/ (transactWrite items env w
      = (Normal tt,
         with_table (fold_left apply_item items (table w))
                    (sent (ReqTransactWrite items) w))
      /\ items <> []
      /\ distinct (map key_of items) = true
      /\ forallb (condition_ok (table w)) items = true).
Proof.
  unfold transactWrite.
  destruct (refused (reply env (calls w))); [left; eexists; reflexivity|].
  destruct items as [|i l]; [left; eexists; reflexivity|].
  destruct (distinct (map key_of (i :: l))); cbn [negb];
    [|left; eexists; reflexivity].
  destruct (forallb (condition_ok (table w)) (i :: l)); cbn [negb];
    [|left; eexists; reflexivity].
  right. repeat split. discriminate.
Qed.

Lemma getTodoItems_cases (env : Env) (w : World) :
  AppTs.getTodoItems env w
  = match reply env (calls w) with
    | Served => (Normal (inl (table w)), sent ReqScan w)
    | Refused => (Normal (inr AppTs.getError),
                  snd (console_log RequestFailed env (sent ReqScan w)))
    | NoItems => (Normal (inr AppTs.noData), sent ReqScan w)
    end.
Proof.
  unfold AppTs.getTodoItems, try_catch, bind, scan.
  destruct (reply env (calls w)); reflexivity.
Qed.

Lemma AppTs_lambdaHandler_cases (env : Env) (w : World) :
  (reply env (calls w) = Refused
   /\ AppTs.lambdaHandler env w
      = (Normal (mkResponse 400),
         snd (console_log RequestFailed env (sent ReqScan w))))
  \/ (reply env (calls w) = NoItems
      /\ AppTs.lambdaHandler env w = (Normal (mkResponse 400), sent ReqScan w))
  \/ (reply env (calls w) = Served
      /\ exists batch w1,
          AppTs.createTransactItems (table w) env (sent ReqScan w) = (Normal batch, w1)
          /\ same_store (sent ReqScan w) w1
          /\ ((batch = []
               /\ AppTs.lambdaHandler env w = (Normal (mkResponse 200), w1))
              \/ (exists e,
                     transactWrite batch env w1
                     = (Throw e, sent (ReqTransactWrite batch) w1)
                     /\ AppTs.lambdaHandler env w
                        = (Normal (mkResponse 400),
                           snd (console_log e env (sent (ReqTransactWrite batch) w1))))
              \/ (transactWrite batch env w1
                  = (Normal tt,
                     with_table (fold_left apply_item batch (table w1))
                                (sent (ReqTransactWrite batch) w1))
                  /\ AppTs.lambdaHandler env w
                     = (Normal (mkResponse 200),
                        with_table (fold_left apply_item batch (table w1))
                                   (sent (ReqTransactWrite batch) w1))))).
Proof.
  unfold AppTs.lambdaHandler.
  pose proof (getTodoItems_cases env w) as G.
  destruct (reply env (calls w)) eqn:R; rewrite (bind_normal _ _ _ _ _ _ G).
  - right. right. split; [reflexivity|].
    destruct (createTransactItems_same_store (table w) env (sent ReqScan w))
      as [batch [w1 [E S]]].
    exists batch, w1. split; [exact E|]. split; [exact S|].
    rewrite (bind_normal _ _ _ _ _ _ E).
    destruct batch as [|i l].
    + left. split; reflexivity.
    + right. cbn [List.length Nat.eqb]. unfold try_catch.
      destruct (transactWrite_cases (i :: l) env w1) as [[e T]|[T _]].
      * left. exists e. split; [exact T|].
        rewrite (bind_throw _ _ _ _ _ _ T). reflexivity.
      * right. split; [exact T|].
        rewrite (bind_normal _ _ _ _ _ _ T). reflexivity.
  - left. split; reflexivity.
  - right. left. split; reflexivity.
Qed.

Lemma try_catch_log_normal (m : Js unit) env w :
  exists w', try_catch m (fun error => console_log error) env w = (Normal tt, w').
Proof.
  unfold try_catch. destruct (m env w) as [[[]|e] w1].
  - now exists w1.
  - eexists. reflexivity.
Qed.


(** ** The successors app.ts builds *)

Lemma turns_puts (env : Env) l w items w' :
  turns env l w items w' ->
  (reads w <= reads w')%nat /\ (draws w <= draws w')%nat
  /\ forall succ cond, In (Put succ cond) items ->
       cond = Some (attribute_not_exists "id")
       /\ exists t k j,
           In t l /\ successor_of t succ
           /\ (reads w <= k < reads w')%nat /\ (draws w <= j < draws w')%nat
           /\ id succ = uuid env j
           /\ updatedAt succ = toISOString (clock env k)
           /\ targetAt succ = toISOString (clock env k + 3 * msPerDay)
           /\ In (Update (id t) 1) items.
Proof.
  induction 1 as [w|t l w items w' H T [IH1 [IH2 IH3]]
                 |t l w succ0 cond0 w1 items w' H T [IH1 [IH2 IH3]]].
  - split; [lia|]. split; [lia|]. intros succ cond [].
  - split; [exact IH1|]. split; [exact IH2|].
    intros succ cond [E|Hin]; [discriminate E|].
    destruct (IH3 succ cond Hin) as [Hc [t' [k [j [A [B [C [D [E [F [G I]]]]]]]]]]].
    split; [exact Hc|]. exists t', k, j.
    split; [now right|]. split; [exact B|]. split; [lia|]. split; [lia|].
    split; [exact E|]. split; [exact F|]. split; [exact G|]. now right.
  - destruct (AppTs_expired_turn_cases t env w) as [[_ [_ E]]|[_ E]];
      rewrite E in H; inversion H; subst; clear H.
    cbn [reads draws] in IH1, IH2, IH3.
    split; [lia|]. split; [lia|].
    intros succ cond [E'|[E'|Hin]]; [discriminate E'| |].
    + inversion E'; subst; clear E'. split; [reflexivity|].
      exists t, (reads w), (draws w). cbn.
      split; [now left|]. split; [repeat split|]. split; [lia|]. split; [lia|].
      split; [reflexivity|]. split; [reflexivity|]. split; [reflexivity|].
      now left.
    + destruct (IH3 succ cond Hin) as [Hc [t' [k [j [A [B [C [D [E' [F [G I]]]]]]]]]]].
      split; [exact Hc|]. exists t', k, j.
      split; [now right|]. split; [exact B|]. split; [lia|]. split; [lia|].
      split; [exact E'|]. split; [exact F|]. split; [exact G|].
      right. now right.
Qed.

Lemma expired_filter_Active (limit : Z) (t : Todo) :
  AppTs.expired_filter limit t = true -> status t = Active.
Proof.
  unfold AppTs.expired_filter. destruct (status t =? 0) eqn:E; [|discriminate].
  intros _. now apply Z.eqb_eq in E.
Qed.

Lemma In_not_superseded_app (deletes expired : list TransactWriteItem) succ cond :
  In (Put succ cond)
     (filter (fun item => negb (superseded deletes item)) expired ++ deletes) ->
  Forall (fun d => is_Delete d = true) deletes ->
  In (Put succ cond) expired.
Proof.
  intros Hin Hd. apply in_app_or in Hin. destruct Hin as [Hin|Hin].
  - apply filter_In in Hin. tauto.
  - rewrite Forall_forall in Hd. apply Hd in Hin. discriminate Hin.
Qed.

(** Every create in the batch of app.ts. *)
Lemma AppTs_batch_puts (env : Env) (w : World) (todoItems : list Todo) batch w' :
  AppTs.createTransactItems todoItems env w = (Normal batch, w') ->
  forall succ cond, In (Put succ cond) batch ->
    cond = Some (attribute_not_exists "id")
    /\ exists t k j,
        In t todoItems /\ status t = Active /\ successor_of t succ
        /\ (reads w < k < reads w')%nat /\ (draws w <= j < draws w')%nat
        /\ id succ = uuid env j
        /\ updatedAt succ = toISOString (clock env k)
        /\ targetAt succ = toISOString (clock env k + 3 * msPerDay)
        /\ (In (Update (id t) 1) batch \/ In (Delete (id t)) batch).
Proof.
  intros E succ cond Hin.
  destruct (createTransactItems_structure env w todoItems)
    as [expired [w1 [deletes [w2 [_ [T [D [Hd [E' _]]]]]]]]].
  rewrite E in E'. injection E' as Hb Hw.
  rewrite createDeleteTransactItems_eq in D. injection D as _ D2.
  assert (Fd : Forall (fun d => is_Delete d = true) deletes).
  { rewrite Hd. apply Forall_forall. intros d Hi. apply in_map_iff in Hi.
    destruct Hi as [t [<- _]]. reflexivity. }
  clear Hd. rewrite Hb in Hin.
  pose proof (In_not_superseded_app _ _ _ _ Hin Fd) as Hexp.
  destruct (turns_puts env _ _ _ _ T) as [R1 [R2 P]].
  destruct (P succ cond Hexp) as [Hc [t [k [j [A [B [C [D' [F [G [I U]]]]]]]]]]].
  assert (Hr : reads w' = S (reads w1) /\ draws w' = draws w1).
  { rewrite Hw, <- D2. split; reflexivity. }
  destruct Hr as [Hr1 Hr2].
  cbn [new_Date snd reads draws] in C, D'.
  split; [exact Hc|]. exists t, k, j.
  apply filter_In in A. destruct A as [A1 A2].
  split; [exact A1|]. split; [eapply expired_filter_Active; exact A2|].
  split; [exact B|].
  split; [lia|]. split; [lia|]. split; [exact F|]. split; [exact G|].
  split; [exact I|]. rewrite Hb.
  destruct (superseded deletes (Update (id t) 1)) eqn:S.
  - right. unfold superseded in S. cbn [AppTs.is_Update andb Update_Key_id] in S.
    apply includes_In in S. apply in_map_iff in S. destruct S as [d [Ed Hi]].
    rewrite Forall_forall in Fd. pose proof (Fd d Hi) as Hdd.
    destruct d; try discriminate. cbn in Ed. inversion Ed; subst.
    apply in_or_app. now right.
  - left. apply in_or_app. left. apply filter_In. split; [exact U|].
    now rewrite S.
Qed.

(** ** The transactions app.js submits *)

Lemma writes_ok_nil (P : list TransactWriteItem -> Prop) : writes_ok P [].
Proof. intros items []. Qed.

Lemma writes_ok_app (P : list TransactWriteItem -> Prop) (a b : list Request) :
  writes_ok P a -> writes_ok P b -> writes_ok P (a ++ b).
Proof.
  intros Ha Hb items Hin. apply in_app_or in Hin.
  destruct Hin as [Hin|Hin]; [now apply Ha|now apply Hb].
Qed.

Lemma writes_ok_weaken (P Q : list TransactWriteItem -> Prop) (a : list Request) :
  (forall items, P items -> Q items) -> writes_ok P a -> writes_ok Q a.
Proof. intros H Ha items Hin. apply H. now apply Ha. Qed.

Lemma for_of_requests {A} (P : list TransactWriteItem -> Prop)
    (body : A -> Js unit) (env : Env) (l : list A) :
  (forall x w, In x l ->
     exists extra, requests (snd (body x env w)) = requests w ++ extra
                   /\ writes_ok P extra) ->
  forall w,
    exists extra, requests (snd (for_of l body env w)) = requests w ++ extra
                  /\ writes_ok P extra.
Proof.
  induction l as [|x l IH]; intros Hb w.
  - exists []. simpl. rewrite app_nil_r. split; [reflexivity|apply writes_ok_nil].
  - cbn [for_of]. unfold bind.
    destruct (Hb x w (or_introl eq_refl)) as [e1 [E1 O1]].
    destruct (body x env w) as [[[]|e] w1] eqn:B; cbn [snd] in E1.
    + destruct (IH (fun y w0 Hy => Hb y w0 (or_intror Hy)) w1) as [e2 [E2 O2]].
      exists (e1 ++ e2). rewrite E2, E1, <- app_assoc.
      split; [reflexivity|now apply writes_ok_app].
    + exists e1. split; [exact E1|exact O1].
Qed.

Lemma transactWrite_requests (items : list TransactWriteItem) env w :
  requests (snd (transactWrite items env w))
  = requests w ++ [ReqTransactWrite items].
Proof.
  destruct (transactWrite_cases items env w) as [[e E]|[E _]]; rewrite E;
    reflexivity.
Qed.

Lemma AppJs_expired_body_requests (env : Env) (stamp : DateString) (t : Todo) w :
  exists extra,
    requests (snd (AppJs.expired_body stamp t env w)) = requests w ++ extra
    /\ writes_ok (js_transaction env [t] stamp) extra.
Proof.
  unfold AppJs.expired_body.
  destruct (AppJs_transactItems_of_cases stamp t env w) as [[C [_ E]]|[_ E]];
    rewrite (bind_normal _ _ _ _ _ _ E).
  - rewrite C, transactWrite_requests. eexists. split; [reflexivity|].
    intros items [Hi|[]]. injection Hi as <-.
    exists t. split; [now left|]. right.
    eexists; exists (reads w), (draws w). split; [reflexivity|].
    split; [repeat split|]. split; [reflexivity|]. split; reflexivity.
  - destruct (ToBoolean (carryOver t)).
    + rewrite transactWrite_requests. eexists. split; [reflexivity|].
      intros items [Hi|[]]. injection Hi as <-.
      exists t. split; [now left|]. now left.
    + exists []. cbn. rewrite app_nil_r. split; [reflexivity|apply writes_ok_nil].
Qed.

Lemma js_transaction_incl (env : Env) (data data' : list Todo) stamp items :
  (forall t, In t data -> In t data') ->
  js_transaction env data stamp items -> js_transaction env data' stamp items.
Proof. intros H [t [Hin R]]. exists t. split; [now apply H|exact R]. Qed.

Lemma try_catch_log_requests (m : Js unit) env w :
  requests (snd (try_catch m (fun error => console_log error) env w))
  = requests (snd (m env w)).
Proof. unfold try_catch. destruct (m env w) as [[[]|e] w1]; reflexivity. Qed.

Lemma lt0_minus_setDate (d : DateString) (now : Z) :
  lt0 (minus (Date_getTime d) (Some (setDate_plus now (- 7))))
  = before (now - 7 * msPerDay) d.
Proof.
  rewrite lt0_minus_before. unfold setDate_plus.
  replace (now + - 7 * msPerDay) with (now - 7 * msPerDay) by lia. reflexivity.
Qed.

Lemma expired_reducer_filter (now : Z) (l : list Todo) :
  reduce (AppJs.expired_reducer (setDate_plus now (- flagDeleteDate))) [] l
  = filter (fun r => before (now - 7 * msPerDay) (targetAt r)) l.
Proof.
  unfold AppJs.expired_reducer.
  rewrite (reduce_push_filter
             (fun r => lt0 (minus (Date_getTime (targetAt r))
                                  (Some (setDate_plus now (- flagDeleteDate)))))).
  simpl. apply filter_ext. intros r. apply lt0_minus_setDate.
Qed.

(** What [expiredTodo] sends: the query, then transactions of the expiring
    records, every successor stamped with the second clock reading. *)
Lemma AppJs_expiredTodo_requests (env : Env) (w : World) :
  exists extra,
    requests (snd (AppJs.expiredTodo env w)) = requests w ++ ReqQuery 0 :: extra
    /\ writes_ok (js_transaction env (js_expiring env w)
                                 (toISOString (clock env (S (reads w)))))
                 extra.
Proof.
  unfold AppJs.expiredTodo. rewrite try_catch_log_requests.
  unfold bind at 1. unfold query.
  destruct (refused (reply env (calls w))).
  - exists []. split; [reflexivity|apply writes_ok_nil].
  - set (data := filter (fun r => status r =? 0) (table w)).
    destruct (Nat.ltb 0 (List.length data)).
    + unfold bind at 1. unfold new_Date at 1.
      unfold bind at 1. unfold new_Date at 1.
      rewrite expired_reducer_filter. cbn [reads sent].
      match goal with
      | |- context [for_of ?l ?b env ?w1] =>
          destruct (for_of_requests
                      (js_transaction env l (toISOString (clock env (S (reads w)))))
                      b env l) with (w := w1) as [extra [E O]]
      end.
      { intros t w0 Hin.
        destruct (AppJs_expired_body_requests env
                    (toISOString (clock env (S (reads w)))) t w0) as [e [E O]].
        exists e. split; [exact E|].
        eapply writes_ok_weaken; [|exact O].
        intros items. apply js_transaction_incl.
        intros t' [<-|[]]. exact Hin. }
      exists extra. rewrite E. cbn [requests sent].
      rewrite <- app_assoc. split; [reflexivity|exact O].
    + exists []. split; [reflexivity|apply writes_ok_nil].
Qed.

Lemma delete_requests (k : string) env w :
  requests (snd (delete k env w)) = requests w ++ [ReqDelete k].
Proof. unfold delete. destruct (refused _); reflexivity. Qed.

Lemma AppJs_deleteTodo_requests (env : Env) (w : World) :
  exists extra,
    requests (snd (AppJs.deleteTodo env w)) = requests w ++ extra
    /\ writes_ok (fun _ => False) extra.
Proof.
  unfold AppJs.deleteTodo. rewrite try_catch_log_requests.
  unfold bind at 1. unfold query.
  destruct (refused (reply env (calls w))).
  - exists [ReqQuery 1]. split; [reflexivity|]. intros items [H|[]]. discriminate H.
  - destruct (Nat.eqb _ 0).
    + exists [ReqQuery 1]. split; [reflexivity|]. intros items [H|[]]. discriminate H.
    + unfold bind at 1. unfold new_Date at 1.
      match goal with
      | |- context [for_of ?l ?b env ?w1] =>
          destruct (for_of_requests (fun _ => False) b env l) with (w := w1)
            as [extra [E O]]
      end.
      { intros k w0 _. exists [ReqDelete k]. split; [apply delete_requests|].
        intros items [H|[]]. discriminate H. }
      exists (ReqQuery 1 :: extra). rewrite E. cbn [requests sent].
      rewrite <- app_assoc. split; [reflexivity|].
      intros items [H|H]; [discriminate H|exact (O items H)].
Qed.

Lemma AppJs_lambdaHandler_world (env : Env) (w : World) :
  snd (AppJs.lambdaHandler env w)
  = snd (AppJs.deleteTodo env (snd (AppJs.expiredTodo env w))).
Proof.
  unfold AppJs.lambdaHandler.
  destruct (try_catch_log_normal
              (data <- query 0 ;;
               if Nat.ltb 0 (List.length data) then
                 now <- new_Date ;;
                 let deleteLimit := setDate_plus now (- flagDeleteDate) in
                 let updateTodoList :=
                   reduce (AppJs.expired_reducer deleteLimit) [] data in
                 now' <- new_Date ;;
                 let updateiSOString := toISOString now' in
                 for_of updateTodoList (AppJs.expired_body updateiSOString)
               else ret tt) env w) as [w1 E1].
  change (AppJs.expiredTodo env w = (Normal tt, w1)) in E1.
  rewrite (bind_normal _ _ _ _ _ _ E1), E1. cbn [snd].
  unfold bind. destruct (AppJs.deleteTodo env w1) as [[[]|e] w2]; reflexivity.
Qed.

(** ** A run of app.js is its requests, one by one *)

Lemma one_by_one_normal (env : Env) (l : list Request) (w : World) :
  exists w', one_by_one l env w = (Normal tt, w').
Proof.
  unfold one_by_one. revert w. induction l as [|q l IH]; intros w.
  - now exists w.
  - cbn [for_of].
    destruct (try_catch_log_normal (perform q) env w) as [w1 E].
    rewrite (bind_normal _ _ _ _ _ _ E). apply IH.
Qed.
























(** The run of app.js over two carried-over overdue records with the third
    request (the transaction of the second record) refused: one exception
    logged, the first record flagged and its successor written, the second
    record untouched. *)
Example AppJs_third_refused_run :
  let w' := snd (AppJs.lambdaHandler Sample.third_refused
                   (Sample.start [Sample.recurring; Sample.recurring2])) in
  console w' = [RequestFailed]
  /\ map (fun r => (id r, status r)) (table w')
     = [("b", Expired); ("c", Active); ("new0", Active)]
  /\ List.length (requests w') = 4%nat.
Proof. vm_compute. repeat split. Qed.

(** Both handlers with a store that refuses every request: app.js logs the
    failure of each of its two queries and answers 200, app.ts logs the
    failure of its scan and answers 400. *)
Example runs_with_the_store_down :
  AppJs.lambdaHandler Sample2.down (Sample.start [Sample.recurring])
  = (Normal (mkResponse 200),
     mkWorld [Sample.recurring] 0 0 [ReqQuery 0; ReqQuery 1]
             [RequestFailed; RequestFailed])
  /\ AppTs.lambdaHandler Sample2.down (Sample.start [Sample.recurring])
     = (Normal (mkResponse 400),
        mkWorld [Sample.recurring] 0 0 [ReqScan] [RequestFailed]).
Proof. vm_compute. split; reflexivity. Qed.


Lemma js_expiring_in_table (env : Env) (w : World) (t : Todo) :
  In t (js_expiring env w) -> In t (table w) /\ status t = Active.
Proof.
  unfold js_expiring. intros H. apply filter_In in H. destruct H as [H _].
  apply filter_In in H. destruct H as [H1 H2]. split; [exact H1|].
  now apply Z.eqb_eq in H2.
Qed.

(** Every transaction of a run of app.js. *)
Lemma AppJs_run_writes (env : Env) (w : World) :
  writes_ok (js_transaction env (js_expiring env w)
                            (toISOString (clock env (S (reads w)))))
            (new_requests w (snd (AppJs.lambdaHandler env w))).
Proof.
  rewrite AppJs_lambdaHandler_world.
  destruct (AppJs_expiredTodo_requests env w) as [e1 [E1 O1]].
  destruct (AppJs_deleteTodo_requests env (snd (AppJs.expiredTodo env w)))
    as [e2 [E2 O2]].
  rewrite (new_requests_app w _ ((ReqQuery 0 :: e1) ++ e2)).
  - apply writes_ok_app.
    + intros items [H|H]; [discriminate H|now apply O1].
    + intros items H. exfalso. exact (O2 items H).
  - rewrite E2, E1, <- app_assoc. reflexivity.
Qed.

(** ** What the store accepts *)

Lemma distinct_NoDup (l : list string) : distinct l = true -> NoDup l.
Proof.
  induction l as [|x l IH]; simpl; intros H; [constructor|].
  apply andb_prop in H. destruct H as [H1 H2]. constructor; [|now apply IH].
  intros Hin. apply negb_true_iff in H1.
  assert (existsb (String.eqb x) l = true) as E; [|congruence].
  apply existsb_exists. exists x. split; [exact Hin|apply String.eqb_refl].
Qed.

Lemma distinct_keys_inj (items : list TransactWriteItem) (a b : TransactWriteItem) :
  distinct (map key_of items) = true ->
  In a items -> In b items -> key_of a = key_of b -> a = b.
Proof.
  intros D. apply distinct_NoDup in D.
  induction items as [|i l IH]; intros Ha Hb E; [destruct Ha|].
  cbn [map] in D. inversion D as [|? ? N D']; subst.
  destruct Ha as [<-|Ha], Hb as [<-|Hb].
  - reflexivity.
  - exfalso. apply N. rewrite E. now apply in_map.
  - exfalso. apply N. rewrite <- E. now apply in_map.
  - now apply IH.
Qed.

Lemma get_of_id (t : list Todo) (k : string) :
  In k (ids t) -> exists r, get t k = Some r.
Proof.
  unfold ids, get. induction t as [|r t IH]; simpl; [intros []|].
  intros [E|Hin].
  - exists r. subst k. now rewrite String.eqb_refl.
  - destruct (String.eqb (id r) k); [now exists r|now apply IH].
Qed.

(** A create conditioned on [attribute_not_exists(#id)] whose id the table
    already holds makes the transaction throw, with the table untouched;
    an accepted transaction therefore only creates ids the table did not
    hold, and works on every key once. *)
Lemma transactWrite_collision (items : list TransactWriteItem) env w succ :
  In (Put succ (Some (attribute_not_exists "id"))) items ->
  In (id succ) (ids (table w)) ->
  exists e, transactWrite items env w = (Throw e, sent (ReqTransactWrite items) w).
Proof.
  intros Hin Hid.
  destruct (transactWrite_cases items env w) as [T|[_ [_ [_ C]]]]; [exact T|].
  exfalso. rewrite forallb_forall in C. specialize (C _ Hin).
  cbn [condition_ok] in C. destruct (get_of_id _ _ Hid) as [r G].
  rewrite G in C. discriminate C.
Qed.

Lemma transactWrite_accepted (items : list TransactWriteItem) env w w' succ :
  transactWrite items env w = (Normal tt, w') ->
  In (Put succ (Some (attribute_not_exists "id"))) items ->
  ~ In (id succ) (ids (table w))
  /\ forall k v, (In (Update k v) items \/ In (Delete k) items) -> id succ <> k.
Proof.
  intros T Hin. split.
  - intros Hid. destruct (transactWrite_collision items env w succ Hin Hid) as [e E].
    rewrite E in T. discriminate T.
  - destruct (transactWrite_cases items env w) as [[e E]|[_ [_ [D _]]]];
      [rewrite E in T; discriminate T|].
    intros k v [H|H] Eq.
    + assert (Put succ (Some (attribute_not_exists "id")) = Update k v) as X
        by (apply (distinct_keys_inj items); assumption).
      discriminate X.
    + assert (Put succ (Some (attribute_not_exists "id")) = Delete k) as X
        by (apply (distinct_keys_inj items); assumption).
      discriminate X.
Qed.

(** ** Successors *)

(** C6.  In both handlers a successor has the status of its predecessor,
    which is Active (app.ts filters on [status !== 0], app.js queries the
    status 0), and its id is an identifier drawn from [uuid] for it; the
    transaction that carries it is accepted only when that id differs from
    the predecessor's and from every id of the table. *)
Theorem C6_successor_is_active_and_new (env : Env) (w : World) :
  (forall todoItems batch w',
      AppTs.createTransactItems todoItems env w = (Normal batch, w') ->
      forall succ cond, In (Put succ cond) batch ->
        status succ = Active
        /\ exists t j,
            In t todoItems /\ successor_of t succ
            /\ (draws w <= j < draws w')%nat /\ id succ = uuid env j
            /\ forall w1 w2,
                transactWrite batch env w1 = (Normal tt, w2) ->
                id succ <> id t /\ ~ In (id succ) (ids (table w1)))
  /\ (forall items,
      In (ReqTransactWrite items) (new_requests w (snd (AppJs.lambdaHandler env w))) ->
      forall succ cond, In (Put succ cond) items ->
        status succ = Active
        /\ exists t j,
            In t (table w) /\ successor_of t succ /\ id succ = uuid env j
            /\ forall w1 w2,
                transactWrite items env w1 = (Normal tt, w2) ->
                id succ <> id t /\ ~ In (id succ) (ids (table w1))).
Proof.
  split.
  - intros todoItems batch w' E succ cond Hin.
    destruct (AppTs_batch_puts env w todoItems batch w' E succ cond Hin)
      as [Hc [t [k [j [A [B [C [_ [D [F [_ [_ U]]]]]]]]]]]].
    subst cond. split.
    + destruct C as [C _]. congruence.
    + exists t, j. split; [exact A|]. split; [exact C|]. split; [exact D|].
      split; [exact F|]. intros w1 w2 T.
      destruct (transactWrite_accepted batch env w1 w2 succ T Hin) as [N K].
      split; [|exact N]. apply (K (id t) 1). exact U.
  - intros items Hreq succ cond Hin.
    destruct (AppJs_run_writes env w items Hreq) as [t [Ht [E|[s [k [j [E [S [_ [_ I]]]]]]]]]].
    + subst items. destruct Hin as [X|[]]. discriminate X.
    + subst items. destruct Hin as [X|[X|[]]]; [discriminate X|].
      injection X as <- <-.
      apply js_expiring_in_table in Ht. destruct Ht as [Ht Hs].
      split; [destruct S as [S _]; congruence|].
      exists t, j. split; [exact Ht|]. split; [exact S|]. split; [exact I|].
      intros w1 w2 T.
      destruct (transactWrite_accepted _ env w1 w2 s T (or_intror (or_introl eq_refl)))
        as [N K].
      split; [|exact N]. apply (K (id t) 1). left. now left.
Qed.

(** C6 at the run of each handler on one carried-over record. *)
Lemma C6_successor_is_active_and_new_witness :
  (exists batch w' succ cond,
      AppTs.createTransactItems [Sample.recurring] Sample.steady
        (Sample.start [Sample.recurring]) = (Normal batch, w')
      /\ In (Put succ cond) batch
      /\ status succ = Active
      /\ exists t j,
          In t [Sample.recurring] /\ successor_of t succ
          /\ (0 <= j < draws w')%nat /\ id succ = Sample.names j
          /\ forall w1 w2,
              transactWrite batch Sample.steady w1 = (Normal tt, w2) ->
              id succ <> id t /\ ~ In (id succ) (ids (table w1)))
  /\ (exists items succ cond,
      In (ReqTransactWrite items)
         (new_requests (Sample.start [Sample.recurring])
            (snd (AppJs.lambdaHandler Sample.steady (Sample.start [Sample.recurring]))))
      /\ In (Put succ cond) items
      /\ status succ = Active
      /\ exists t j,
          In t [Sample.recurring] /\ successor_of t succ
          /\ id succ = Sample.names j
          /\ forall w1 w2,
              transactWrite items Sample.steady w1 = (Normal tt, w2) ->
              id succ <> id t /\ ~ In (id succ) (ids (table w1))).
Proof.
  pose proof (C6_successor_is_active_and_new Sample.steady
                (Sample.start [Sample.recurring])) as [Ts Js].
  split.
  - eexists; eexists; eexists; eexists.
    split; [vm_compute; reflexivity|]. split; [left; reflexivity|].
    apply (Ts [Sample.recurring] _ _ eq_refl _ _ (or_introl eq_refl)).
  - eexists; eexists; eexists.
    split; [vm_compute; right; left; reflexivity|].
    split; [right; left; reflexivity|].
    eapply Js; [vm_compute; right; left; reflexivity|right; left; reflexivity].
Defined.

(** C7, as the code has it.  In both handlers a successor copies [status],
    [title], [url], [carryOver], [createdAt] and [updatedUser] from its
    predecessor, carries the predecessor's open sub-items and has no owner.
    In app.js its [updatedAt] is the second clock reading of the run, the
    same for every successor of the run; in app.ts it is the clock reading
    taken when that successor is built, and its [targetAt] is that reading
    plus 3 days. *)
Theorem C7_successor_fields (env : Env) (w : World) :
  (forall todoItems batch w',
      AppTs.createTransactItems todoItems env w = (Normal batch, w') ->
      forall succ cond, In (Put succ cond) batch ->
        exists t k,
          In t todoItems /\ successor_of t succ
          /\ (reads w < k < reads w')%nat
          /\ updatedAt succ = toISOString (clock env k)
          /\ targetAt succ = toISOString (clock env k + 3 * msPerDay))
  /\ (forall items,
      In (ReqTransactWrite items) (new_requests w (snd (AppJs.lambdaHandler env w))) ->
      forall succ cond, In (Put succ cond) items ->
        exists t,
          In t (table w) /\ successor_of t succ
          /\ updatedAt succ = toISOString (clock env (S (reads w)))).
Proof.
  split.
  - intros todoItems batch w' E succ cond Hin.
    destruct (AppTs_batch_puts env w todoItems batch w' E succ cond Hin)
      as [_ [t [k [j [A [_ [C [R [_ [_ [G [I _]]]]]]]]]]]].
    exists t, k. repeat (split; [assumption|]). assumption.
  - intros items Hreq succ cond Hin.
    destruct (AppJs_run_writes env w items Hreq) as [t [Ht [E|[s [k [j [E [S [U _]]]]]]]]].
    + subst items. destruct Hin as [X|[]]. discriminate X.
    + subst items. destruct Hin as [X|[X|[]]]; [discriminate X|].
      injection X as <- <-.
      apply js_expiring_in_table in Ht. destruct Ht as [Ht _].
      exists t. split; [exact Ht|]. split; [exact S|exact U].
Qed.

(** C7 at the run of each handler on one carried-over record, the clock
    advancing. *)
Lemma C7_successor_fields_witness :
  (exists batch w' succ cond,
      AppTs.createTransactItems [Sample.recurring] Sample.ticking
        (Sample.start [Sample.recurring]) = (Normal batch, w')
      /\ In (Put succ cond) batch
      /\ exists t k,
          In t [Sample.recurring] /\ successor_of t succ
          /\ (0 < k < reads w')%nat
          /\ updatedAt succ = toISOString (Sample.now + Z.of_nat k)
          /\ targetAt succ = toISOString (Sample.now + Z.of_nat k + 3 * msPerDay))
  /\ (exists items succ cond,
      In (ReqTransactWrite items)
         (new_requests (Sample.start [Sample.recurring])
            (snd (AppJs.lambdaHandler Sample.ticking (Sample.start [Sample.recurring]))))
      /\ In (Put succ cond) items
      /\ exists t,
          In t [Sample.recurring] /\ successor_of t succ
          /\ updatedAt succ = toISOString (Sample.now + 1)).
Proof.
  pose proof (C7_successor_fields Sample.ticking
                (Sample.start [Sample.recurring])) as [Ts Js].
  split.
  - eexists; eexists; eexists; eexists.
    split; [vm_compute; reflexivity|]. split; [left; reflexivity|].
    apply (Ts [Sample.recurring] _ _ eq_refl _ _ (or_introl eq_refl)).
  - eexists; eexists; eexists.
    split; [vm_compute; right; left; reflexivity|].
    split; [right; left; reflexivity|].
    eapply Js; [vm_compute; right; left; reflexivity|right; left; reflexivity].
Defined.

(** Two successors of one run of app.ts, the clock advancing by a
    millisecond per reading: their [updatedAt] differ. *)
Lemma C7_stamps_differ_counterexample :
  ~ C7_as_stated Sample.ticking
      (Sample.start [Sample.recurring; Sample.recurring2])
      [Sample.recurring; Sample.recurring2].
Proof.
  intros H.
  specialize (H _ _ eq_refl _ _ _ _ (or_introl eq_refl) (or_intror (or_introl eq_refl))).
  vm_compute in H. discriminate H.
Qed.

(** ** The guard of the create *)

Lemma AppTs_lambdaHandler_collision (env : Env) (w : World) resp w' batch succ cond :
  AppTs.lambdaHandler env w = (Normal resp, w') ->
  In (ReqTransactWrite batch) (new_requests w w') ->
  In (Put succ cond) batch ->
  In (id succ) (ids (table w)) ->
  statusCode resp = 400 /\ table w' = table w.
Proof.
  intros E Hreq Hin Hid.
  destruct (AppTs_lambdaHandler_cases env w)
    as [[_ E']|[[_ E']|[_ [b [w1 [C [[S1 [S2 S3]] H]]]]]]];
    [rewrite E in E'; injection E' as -> ->; split; reflexivity ..|].
  cbn [table requests sent] in S1, S2.
  assert (Hb : forall wx, requests wx = requests w1 ++ [ReqTransactWrite b] ->
                          In (ReqTransactWrite batch) (new_requests w wx) -> batch = b).
  { intros wx Hx Hr.
    rewrite (new_requests_app w wx [ReqScan; ReqTransactWrite b]) in Hr.
    - destruct Hr as [X|[X|[]]]; [discriminate X|]. now injection X.
    - rewrite Hx, S2, <- app_assoc. reflexivity. }
  destruct H as [[B E']|[[e [T E']]|[T E']]];
    rewrite E in E'; injection E' as -> ->.
  - exfalso. rewrite (new_requests_app w w1 [ReqScan] S2) in Hreq.
    destruct Hreq as [X|[]]. discriminate X.
  - split; [reflexivity|exact S1].
  - exfalso. apply Hb in Hreq; [|reflexivity]. subst b.
    assert (cond = Some (attribute_not_exists "id")) as ->
      by (eapply AppTs_batch_puts; eassumption).
    rewrite <- S1 in Hid.
    destruct (transactWrite_collision batch env w1 succ Hin Hid) as [e X].
    rewrite X in T. discriminate T.
Qed.

(** C8.  Every create either handler builds carries the condition
    [attribute_not_exists(#id)].  A transaction holding such a create whose
    id the table already has throws and leaves the table as it was; in
    app.ts, where the run is that one transaction, the run then answers 400
    with the table unchanged. *)
Theorem C8_create_guarded_by_absence (env : Env) (w : World) :
  (forall todoItems batch w',
      AppTs.createTransactItems todoItems env w = (Normal batch, w') ->
      forall succ cond, In (Put succ cond) batch ->
        cond = Some (attribute_not_exists "id"))
  /\ (forall items,
      In (ReqTransactWrite items) (new_requests w (snd (AppJs.lambdaHandler env w))) ->
      forall succ cond, In (Put succ cond) items ->
        cond = Some (attribute_not_exists "id"))
  /\ (forall items succ,
      In (Put succ (Some (attribute_not_exists "id"))) items ->
      In (id succ) (ids (table w)) ->
      exists e w',
        transactWrite items env w = (Throw e, w') /\ table w' = table w)
  /\ (forall resp w' batch succ cond,
      AppTs.lambdaHandler env w = (Normal resp, w') ->
      In (ReqTransactWrite batch) (new_requests w w') ->
      In (Put succ cond) batch ->
      In (id succ) (ids (table w)) ->
      statusCode resp = 400 /\ table w' = table w).
Proof.
  split; [|split; [|split]].
  - intros todoItems batch w' E succ cond Hin.
    eapply AppTs_batch_puts; eassumption.
  - intros items Hreq succ cond Hin.
    destruct (AppJs_run_writes env w items Hreq) as [t [_ [E|[s [k [j [E _]]]]]]];
      subst items.
    + destruct Hin as [X|[]]. discriminate X.
    + destruct Hin as [X|[X|[]]]; [discriminate X|]. now injection X.
  - intros items succ Hin Hid.
    destruct (transactWrite_collision items env w succ Hin Hid) as [e E].
    exists e. eexists. split; [exact E|reflexivity].
  - intros resp w' batch succ cond. apply AppTs_lambdaHandler_collision.
Qed.

(** C8 at the batch of app.ts for one carried-over record, and at a
    transaction whose create collides with an item of the table. *)
Lemma C8_create_guarded_by_absence_witness :
  (exists batch w' succ cond,
      AppTs.createTransactItems [Sample.recurring] Sample.steady
        (Sample.start [Sample.recurring]) = (Normal batch, w')
      /\ In (Put succ cond) batch
      /\ cond = Some (attribute_not_exists "id"))
  /\ (exists e w',
      transactWrite
        [Update "a" 1;
         Put (Sample.todo "b" Active 0 0 JNull []) (Some (attribute_not_exists "id"))]
        Sample.steady (Sample.start [Sample.overdue; Sample.recurring])
      = (Throw e, w')
      /\ table w' = table (Sample.start [Sample.overdue; Sample.recurring])).
Proof.
  pose proof (C8_create_guarded_by_absence Sample.steady
                (Sample.start [Sample.recurring])) as [Ts _].
  pose proof (C8_create_guarded_by_absence Sample.steady
                (Sample.start [Sample.overdue; Sample.recurring])) as [_ [_ [Tx _]]].
  split.
  - eexists; eexists; eexists; eexists.
    split; [vm_compute; reflexivity|]. split; [left; reflexivity|].
    apply (Ts [Sample.recurring] _ _ eq_refl _ _ (or_introl eq_refl)).
  - eapply Tx; [right; left; reflexivity|right; left; reflexivity].
Defined.

(** ** The status update *)

(** [set #status = :delete] leaves every other attribute of every item as
    it was, [updatedAt] included. *)
Lemma set_status_frame (k : string) (v : Z) (t : list Todo) :
  map (fun r => (id r, title r, comment r, url r, targetAt r, carryOver r,
                 createdAt r, updatedAt r, updatedUser r, owner r))
      (set_status k v t)
  = map (fun r => (id r, title r, comment r, url r, targetAt r, carryOver r,
                   createdAt r, updatedAt r, updatedUser r, owner r)) t
  /\ Forall2 (fun r r' => status r' = if String.eqb (id r) k then v else status r)
             t (set_status k v t).
Proof.
  unfold set_status. induction t as [|r t [IH1 IH2]]; simpl.
  - split; constructor.
  - split.
    + rewrite IH1. destruct (String.eqb (id r) k); reflexivity.
    + constructor; [|exact IH2]. destruct (String.eqb (id r) k); reflexivity.
Qed.

(** C9.  Deletion eligibility at work on two Expired items.  Item f was
    updated an hour ago and was due 10 days ago: app.ts deletes it, app.js
    keeps it.  Item g was last updated 30 days ago and is due tomorrow:
    app.ts keeps it, app.js deletes it.  app.ts compares [targetAt], app.js
    compares [updatedAt]. *)
Theorem C9_deletion_eligibility_runs :
  fst (AppTs.createTransactItems [Sample.flagged_an_hour_ago] Sample.steady
         (Sample.start [Sample.flagged_an_hour_ago]))
  = Normal [Delete "f"]
  /\ fst (AppTs.createTransactItems [Sample.flagged_a_month_ago] Sample.steady
            (Sample.start [Sample.flagged_a_month_ago]))
     = Normal []
  /\ requests (snd (AppJs.lambdaHandler Sample.steady
                      (Sample.start [Sample.flagged_an_hour_ago])))
     = [ReqQuery 0; ReqQuery 1]
  /\ requests (snd (AppJs.lambdaHandler Sample.steady
                      (Sample.start [Sample.flagged_a_month_ago])))
     = [ReqQuery 0; ReqQuery 1; ReqDelete "g"].
Proof. vm_compute. repeat split; reflexivity. Qed.

(** ** Updates and deletes of app.ts *)

(** Every update of the batch works on an item of the snapshot. *)
Lemma AppTs_update_keys_in_snapshot (env : Env) (w : World) todoItems batch w' k v :
  AppTs.createTransactItems todoItems env w = (Normal batch, w') ->
  In (Update k v) batch ->
  v = Expired /\ exists t, In t todoItems /\ id t = k /\ status t = Active.
Proof.
  intros E Hin.
  destruct (createTransactItems_structure env w todoItems)
    as [expired [w1 [deletes [w2 [_ [T [_ [Hd [E' _]]]]]]]]].
  rewrite E in E'. injection E' as Hb _. rewrite Hb in Hin.
  apply in_app_or in Hin. destruct Hin as [Hin|Hin].
  - apply filter_In in Hin. destruct Hin as [Hin _].
    destruct (turns_items_shape env _ _ _ _ T) as [_ S].
    assert (In (Update k v) (filter AppTs.is_Update expired)) as Hu
      by (apply filter_In; now split).
    rewrite S in Hu. apply in_map_iff in Hu. destruct Hu as [t [Et Ht]].
    injection Et as <- <-. apply filter_In in Ht. destruct Ht as [Ht Hf].
    split; [reflexivity|]. exists t. split; [exact Ht|]. split; [reflexivity|].
    eapply expired_filter_Active; exact Hf.
  - rewrite Hd in Hin. apply in_map_iff in Hin. destruct Hin as [t [X _]].
    discriminate X.
Qed.

(** The first part of C1 on app.ts: the update of an expiring record is in
    the batch unless the batch deletes that record, and then it is not. *)
Lemma AppTs_update_kept_unless_deleted (env : Env) (w : World) todoItems batch w' t :
  AppTs.createTransactItems todoItems env w = (Normal batch, w') ->
  In t todoItems ->
  AppTs.expired_filter (clock env (reads w) - 7 * msPerDay) t = true ->
  (In (Delete (id t)) batch -> ~ In (Update (id t) Expired) batch)
  /\ (~ In (Delete (id t)) batch -> In (Update (id t) Expired) batch).
Proof.
  intros E Ht Hf.
  destruct (createTransactItems_structure env w todoItems)
    as [expired [w1 [deletes [w2 [_ [T [_ [Hd [E' _]]]]]]]]].
  rewrite E in E'. injection E' as Hb _.
  assert (Fd : Forall (fun d => is_Delete d = true) deletes).
  { rewrite Hd. apply Forall_forall. intros d Hi. apply in_map_iff in Hi.
    destruct Hi as [t0 [<- _]]. reflexivity. }
  assert (De : forall k, In (Delete k) batch <-> In (Delete k) deletes).
  { intros k. rewrite Hb. split; [|intros H; apply in_or_app; now right].
    intros H. apply in_app_or in H. destruct H as [H|H]; [|exact H].
    apply filter_In in H. destruct H as [H _].
    destruct (turns_items_shape env _ _ _ _ T) as [S _].
    rewrite Forall_forall in S. apply S in H. discriminate H. }
  assert (Sup : superseded deletes (Update (id t) 1) = true
                <-> In (Delete (id t)) deletes).
  { unfold superseded. cbn [AppTs.is_Update andb Update_Key_id].
    rewrite includes_In, in_map_iff. split.
    - intros [d [Ed Hi]]. rewrite Forall_forall in Fd. pose proof (Fd d Hi) as X.
      destruct d; try discriminate. cbn in Ed. now injection Ed as ->.
    - intros H. exists (Delete (id t)). now split. }
  assert (Ue : In (Update (id t) 1) expired).
  { destruct (turns_items_shape env _ _ _ _ T) as [_ S].
    assert (In (Update (id t) 1) (filter AppTs.is_Update expired)) as X.
    { rewrite S. apply in_map_iff. exists t. split; [reflexivity|].
      apply filter_In. now split. }
    apply filter_In in X. tauto. }
  unfold Expired. split.
  - intros D U. apply De, Sup in D. rewrite Hb in U.
    apply in_app_or in U. destruct U as [U|U].
    + apply filter_In in U. destruct U as [_ U].
      rewrite D in U. discriminate U.
    + rewrite Forall_forall in Fd. apply Fd in U. discriminate U.
  - intros D. rewrite Hb. apply in_or_app. left. apply filter_In.
    split; [exact Ue|]. apply negb_true_iff.
    destruct (superseded deletes (Update (id t) 1)) eqn:S; [|reflexivity].
    exfalso. apply D, De, Sup. reflexivity.
Qed.

Lemma gt0_minus_mono (d : DateString) (a b : Z) :
  a <= b -> gt0 (minus (Date_getTime d) (Some a)) = false ->
  gt0 (minus (Date_getTime d) (Some b)) = false.
Proof.
  destruct d as [u|s]; simpl; [|reflexivity].
  intros Hab H. apply Z.ltb_ge in H. apply Z.ltb_ge. lia.
Qed.

(** With both thresholds at 7 days and both filters reading [targetAt],
    a clock that does not run backwards makes app.ts delete every record it
    would flag: no update is ever left in the batch. *)
Lemma AppTs_no_update_survives (env : Env) (w : World) todoItems batch w' :
  (forall n m, (n <= m)%nat -> clock env n <= clock env m) ->
  AppTs.createTransactItems todoItems env w = (Normal batch, w') ->
  forall k v, ~ In (Update k v) batch.
Proof.
  intros Mono E k v U.
  destruct (AppTs_update_keys_in_snapshot env w todoItems batch w' k v E U)
    as [-> _].
  destruct (createTransactItems_structure env w todoItems)
    as [expired [w1 [deletes [w2 [_ [T [_ [Hd [E' _]]]]]]]]].
  rewrite E in E'. injection E' as Hb _.
  assert (Hin : In (Update k Expired) expired
                /\ superseded deletes (Update k Expired) = false).
  { rewrite Hb in U. apply in_app_or in U. destruct U as [U|U].
    - apply filter_In in U. destruct U as [U1 U2].
      split; [exact U1|]. now apply negb_true_iff in U2.
    - rewrite Hd in U. apply in_map_iff in U. destruct U as [t [X _]].
      discriminate X. }
  destruct Hin as [Ue Sf].
  destruct (turns_items_shape env _ _ _ _ T) as [_ S].
  assert (In (Update k Expired) (filter AppTs.is_Update expired)) as Hu
    by (apply filter_In; now split).
  pose proof Hu as Hu'. rewrite S in Hu'. apply in_map_iff in Hu'.
  destruct Hu' as [t [Et Ht]]. injection Et as <-.
  apply filter_In in Ht. destruct Ht as [Ht Hf].
  assert (D : In (Delete (id t)) deletes).
  { rewrite Hd. apply in_map_iff. exists t. split; [reflexivity|].
    apply filter_In. split; [exact Ht|].
    unfold AppTs.delete_filter.
    assert (includes (updateIds_of expired) (Some (id t)) = true) as ->.
    { apply includes_In. unfold updateIds_of. apply in_map_iff.
      exists (Update (id t) Expired). now split. }
    rewrite andb_false_r.
    unfold AppTs.expired_filter in Hf.
    destruct (negb (status t =? 0)); [discriminate Hf|].
    destruct (gt0 (minus (Date_getTime (targetAt t))
                         (Some (clock env (reads w) - 7 * msPerDay)))) eqn:G;
      [discriminate Hf|].
    rewrite (gt0_minus_mono (targetAt t) (clock env (reads w) - 7 * msPerDay)
               (clock env (reads w1) - 7 * msPerDay)); [reflexivity| |exact G].
    destruct (turns_puts env _ _ _ _ T) as [R _]. cbn [new_Date snd reads] in R.
    assert (clock env (reads w) <= clock env (reads w1)) by (apply Mono; lia).
    lia. }
  unfold superseded in Sf. cbn [AppTs.is_Update andb Update_Key_id] in Sf.
  assert (includes (map Delete_Key_id deletes) (Some (id t)) = true) as X.
  { apply includes_In. apply in_map_iff. exists (Delete (id t)). now split. }
  congruence.
Qed.

(** ** The loop of app.js keeps the items it is about to update *)

Lemma ids_set_status (k : string) (v : Z) (t : list Todo) :
  ids (set_status k v t) = ids t.
Proof.
  unfold ids, set_status. rewrite map_map. apply map_ext.
  intros r. destruct (String.eqb (id r) k); reflexivity.
Qed.

Lemma ids_put_item (it : Todo) (t : list Todo) (k : string) :
  In k (ids t) -> In k (ids (put_item it t)).
Proof.
  unfold ids, put_item, remove_key. intros H. rewrite map_app.
  apply in_map_iff in H. destruct H as [r [<- Hr]].
  destruct (String.eqb (id r) (id it)) eqn:E.
  - apply String.eqb_eq in E. apply in_or_app. right. left. now symmetry.
  - apply in_or_app. left. apply in_map. apply filter_In.
    split; [exact Hr|]. now rewrite E.
Qed.

Lemma AppJs_expired_body_keeps_ids (stamp : DateString) (t : Todo) env w k :
  In k (ids (table w)) ->
  In k (ids (table (snd (AppJs.expired_body stamp t env w)))).
Proof.
  intros H. unfold AppJs.expired_body.
  assert (TW : forall items w1,
             table w1 = table w ->
             (items = [Update (id t) 1]
              \/ exists s c, items = [Update (id t) 1; Put s c]) ->
             In k (ids (table (snd (transactWrite items env w1))))).
  { intros items w1 Et Hs.
    destruct (transactWrite_cases items env w1) as [[e E]|[E _]]; rewrite E;
      cbn [snd table sent with_table]; [now rewrite Et|].
    rewrite Et. destruct Hs as [->|[s [c ->]]]; cbn [fold_left apply_item].
    - now rewrite ids_set_status.
    - apply ids_put_item. now rewrite ids_set_status. }
  destruct (AppJs_transactItems_of_cases stamp t env w) as [[C [_ E]]|[_ E]];
    rewrite (bind_normal _ _ _ _ _ _ E).
  - rewrite C. apply TW; [reflexivity|]. right. eexists; eexists; reflexivity.
  - destruct (ToBoolean (carryOver t)); [|exact H].
    apply TW; [reflexivity|now left].
Qed.

Lemma AppJs_expired_loop_keeps_ids (stamp : DateString) (l : list Todo) env k :
  forall w, In k (ids (table w)) ->
            In k (ids (table (snd (for_of l (AppJs.expired_body stamp) env w)))).
Proof.
  induction l as [|t l IH]; intros w H; [exact H|].
  cbn [for_of]. unfold bind.
  pose proof (AppJs_expired_body_keeps_ids stamp t env w k H) as B.
  destruct (AppJs.expired_body stamp t env w) as [[[]|e] w1]; cbn [snd] in B.
  - now apply IH.
  - exact B.
Qed.

(** ** The order of the write operations *)

(** C4, as the code has it.  The batch of app.ts is the expiry items in the
    order the loop built them (per expiring record of the snapshot its status
    update directly followed by its create, if any) without the updates that
    a delete of the same key supersedes, every create kept, followed by the
    deletes in snapshot order.  app.js has no batch: every transaction of a
    run is the status update of one expiring record, alone or followed by
    the create of its successor. *)
Theorem C4_batch_is_expiry_turns_then_deletes (env : Env) (w : World)
    (todoItems : list Todo) :
  (exists expired w1 deletes w2,
      AppTs.createExpiredTransactItems todoItems env w = (Normal expired, w1)
      /\ turns env
           (filter (AppTs.expired_filter (clock env (reads w) - 7 * msPerDay))
                   todoItems)
           (snd (new_Date env w)) expired w1
      /\ AppTs.createDeleteTransactItems todoItems (updateIds_of expired) env w1
         = (Normal deletes, w2)
      /\ deletes
         = map (fun t => Delete (id t))
               (filter (AppTs.delete_filter (clock env (reads w1) - 7 * msPerDay)
                                            (updateIds_of expired))
                       todoItems)
      /\ AppTs.createTransactItems todoItems env w
         = (Normal (filter (fun item => negb (superseded deletes item)) expired
                    ++ deletes), w2)
      /\ filter is_Put (filter (fun item => negb (superseded deletes item)) expired
                        ++ deletes)
         = filter is_Put expired)
  /\ writes_ok (js_transaction env (js_expiring env w)
                               (toISOString (clock env (S (reads w)))))
               (new_requests w (snd (AppJs.lambdaHandler env w))).
Proof.
  split; [apply createTransactItems_structure|apply AppJs_run_writes].
Qed.

(** * Further properties of the handlers *)

(** ** The two filters of app.ts in terms of dates *)

Lemma gt0_minus_after (d : DateString) (limit : Z) :
  gt0 (minus (Date_getTime d) (Some limit)) = after limit d.
Proof.
  destruct d as [u|s]; simpl; [|reflexivity].
  destruct (0 <? u - limit) eqn:E1, (limit <? u) eqn:E2; try reflexivity;
    [apply Z.ltb_lt in E1; apply Z.ltb_ge in E2|
     apply Z.ltb_ge in E1; apply Z.ltb_lt in E2]; lia.
Qed.

Lemma expired_filter_after (limit : Z) (t : Todo) :
  AppTs.expired_filter limit t
  = (status t =? Active) && negb (after limit (targetAt t)).
Proof.
  unfold AppTs.expired_filter, Active. rewrite gt0_minus_after.
  destruct (status t =? 0), (after limit (targetAt t)); reflexivity.
Qed.

Lemma delete_filter_after (limit : Z) (deleteIds : list (option string)) (t : Todo) :
  AppTs.delete_filter limit deleteIds t
  = ((status t =? Expired) || includes deleteIds (Some (id t)))
    && negb (after limit (targetAt t)).
Proof.
  unfold AppTs.delete_filter, Expired. rewrite gt0_minus_after.
  destruct (status t =? 1), (includes deleteIds (Some (id t))),
    (after limit (targetAt t)); reflexivity.
Qed.

(** X1.  [createExpiredTransactItems] never throws; its status updates are,
    in snapshot order, one for each item whose status is 0 and whose
    [targetAt] is not after the clock reading minus 7 days (an item whose
    [targetAt] is not a date counts as overdue); it builds no delete and at
    most one create per update. *)
Theorem X1_expiry_updates_in_snapshot_order (env : Env) (w : World)
    (todoItems : list Todo) :
  exists expired w1,
    AppTs.createExpiredTransactItems todoItems env w = (Normal expired, w1)
    /\ filter AppTs.is_Update expired
       = map (fun t => Update (id t) Expired)
             (filter (fun t => (status t =? Active)
                               && negb (after (clock env (reads w) - 7 * msPerDay)
                                              (targetAt t)))
                     todoItems)
    /\ filter is_Delete expired = []
    /\ (List.length (filter is_Put expired)
        <= List.length (filter AppTs.is_Update expired))%nat.
Proof.
  destruct (createExpiredTransactItems_turns todoItems env w)
    as [expired [w1 [E T]]].
  exists expired, w1. split; [exact E|].
  destruct (turns_items_shape env _ _ _ _ T) as [S1 S2].
  split.
  - rewrite S2. f_equal. apply filter_ext. intros t. apply expired_filter_after.
  - split.
    + clear -S1. induction S1 as [|x l H _ IH]; [reflexivity|].
      simpl. rewrite H. exact IH.
    + clear -T. induction T; simpl; lia.
Qed.



(** ** Flagged or deleted *)

Lemma In_Delete_dec (k : string) (l : list TransactWriteItem) :
  {In (Delete k) l} + {~ In (Delete k) l}.
Proof.
  induction l as [|i l [IH|IH]].
  - right. intros [].
  - left. now right.
  - destruct i as [k' v|s c|k'].
    + right. intros [X|X]; [discriminate X|now apply IH].
    + right. intros [X|X]; [discriminate X|now apply IH].
    + destruct (string_dec k' k) as [->|N].
      * left. now left.
      * right. intros [X|X]; [injection X as X; now apply N|now apply IH].
Qed.

(** An item app.ts flags and whose [targetAt] is not after the second limit
    is deleted by the same batch. *)
Lemma AppTs_flagged_and_due_is_deleted (env : Env) (w : World) todoItems batch w' t :
  AppTs.createTransactItems todoItems env w = (Normal batch, w') ->
  In t todoItems ->
  AppTs.expired_filter (clock env (reads w) - 7 * msPerDay) t = true ->
  after (clock env (pred (reads w')) - 7 * msPerDay) (targetAt t) = false ->
  In (Delete (id t)) batch.
Proof.
  intros E Ht Hf Ha.
  destruct (createTransactItems_structure env w todoItems)
    as [expired [w1 [deletes [w2 [_ [T [D [Hd [E' _]]]]]]]]].
  rewrite E in E'. injection E' as Hb Hw.
  rewrite createDeleteTransactItems_eq in D. injection D as _ D2.
  assert (Hr : pred (reads w') = reads w1) by (rewrite Hw, <- D2; reflexivity).
  rewrite Hr in Ha.
  destruct (turns_items_shape env _ _ _ _ T) as [_ S2].
  rewrite Hb. apply in_or_app. right. rewrite Hd.
  apply in_map_iff. exists t. split; [reflexivity|].
  apply filter_In. split; [exact Ht|].
  rewrite delete_filter_after, Ha.
  assert (includes (updateIds_of expired) (Some (id t)) = true) as ->.
  { apply includes_In. unfold updateIds_of. rewrite S2, map_map. cbn.
    apply in_map_iff. exists t. split; [reflexivity|].
    apply filter_In. now split. }
  now rewrite orb_true_r.
Qed.

(** No id is both updated and deleted by one batch. *)
Lemma AppTs_no_update_and_delete (env : Env) (w : World) todoItems batch w' k v :
  AppTs.createTransactItems todoItems env w = (Normal batch, w') ->
  In (Update k v) batch -> ~ In (Delete k) batch.
Proof.
  intros E U D.
  destruct (AppTs_update_keys_in_snapshot env w todoItems batch w' k v E U)
    as [-> [t [Ht [<- Hs]]]].
  destruct (createTransactItems_structure env w todoItems)
    as [expired [w1 [deletes [w2 [_ [T [_ [Hd [E' _]]]]]]]]].
  rewrite E in E'. injection E' as Hb _.
  destruct (turns_items_shape env _ _ _ _ T) as [S1 _].
  assert (Dd : In (Delete (id t)) deletes).
  { rewrite Hb in D. apply in_app_or in D. destruct D as [D|D]; [|exact D].
    apply filter_In in D. destruct D as [D _].
    rewrite Forall_forall in S1. apply S1 in D. discriminate D. }
  rewrite Hb in U. apply in_app_or in U. destruct U as [U|U].
  - apply filter_In in U. destruct U as [_ U]. apply negb_true_iff in U.
    unfold superseded in U. cbn [AppTs.is_Update andb Update_Key_id] in U.
    assert (includes (map Delete_Key_id deletes) (Some (id t)) = true) as X.
    { apply includes_In. apply in_map_iff. exists (Delete (id t)). now split. }
    congruence.
  - rewrite Hd in U. apply in_map_iff in U. destruct U as [t0 [X _]].
    discriminate X.
Qed.

(** An Expired item whose [targetAt] is not after the second limit is
    deleted. *)
Lemma AppTs_expired_and_due_is_deleted (env : Env) (w : World) todoItems batch w' t :
  AppTs.createTransactItems todoItems env w = (Normal batch, w') ->
  In t todoItems -> status t = Expired ->
  after (clock env (pred (reads w')) - 7 * msPerDay) (targetAt t) = false ->
  In (Delete (id t)) batch.
Proof.
  intros E Ht Hs Ha.
  destruct (createTransactItems_structure env w todoItems)
    as [expired [w1 [deletes [w2 [_ [T [D [Hd [E' _]]]]]]]]].
  rewrite E in E'. injection E' as Hb Hw.
  rewrite createDeleteTransactItems_eq in D. injection D as _ D2.
  assert (Hr : pred (reads w') = reads w1) by (rewrite Hw, <- D2; reflexivity).
  rewrite Hr in Ha.
  rewrite Hb. apply in_or_app. right.
  rewrite Hd. apply in_map_iff. exists t. split; [reflexivity|].
  apply filter_In. split; [exact Ht|].
  rewrite delete_filter_after, Ha, Hs. reflexivity.
Qed.

(** X3.  The batch of app.ts never holds an update and a delete of the same
    id, and it forgets no overdue Active item of the snapshot: the update of
    such an item is in the batch exactly when the batch does not delete the
    item. *)
Theorem X3_flag_or_delete_never_both (env : Env) (w : World)
    (todoItems : list Todo) (batch : list TransactWriteItem) (w' : World) :
  AppTs.createTransactItems todoItems env w = (Normal batch, w') ->
  (forall k v, In (Update k v) batch -> ~ In (Delete k) batch)
  /\ (forall t, In t todoItems -> status t = Active ->
        after (clock env (reads w) - 7 * msPerDay) (targetAt t) = false ->
        (In (Update (id t) Expired) batch /\ ~ In (Delete (id t)) batch)
        \/ (In (Delete (id t)) batch /\ ~ In (Update (id t) Expired) batch)).
Proof.
  intros E. split.
  - intros k v. now apply (AppTs_no_update_and_delete env w todoItems batch w').
  - intros t Ht Hs Ha.
    assert (Hf : AppTs.expired_filter (clock env (reads w) - 7 * msPerDay) t = true).
    { rewrite expired_filter_after, Ha, Hs. reflexivity. }
    destruct (AppTs_update_kept_unless_deleted env w todoItems batch w' t E Ht Hf)
      as [K1 K2].
    destruct (In_Delete_dec (id t) batch) as [D|D].
    + right. split; [exact D|now apply K1].
    + left. split; [now apply K2|exact D].
Qed.

(** X3 on three overdue Active records with the clock set back before the
    deletes are chosen: "a" (due 10 days ago) is deleted and its update
    dropped, "b" and "c" (due exactly 7 days ago) keep their updates and are
    not deleted. *)
Lemma X3_flag_or_delete_never_both_witness :
  exists batch w',
    AppTs.createTransactItems
      [Sample.overdue; Sample.due_a_week_ago "b"; Sample.due_a_week_ago "c"]
      Sample.set_back
      (Sample.start
         [Sample.overdue; Sample.due_a_week_ago "b"; Sample.due_a_week_ago "c"])
    = (Normal batch, w')
    /\ (In (Update "b" Expired) batch /\ In (Update "c" Expired) batch
        /\ In (Delete "a") batch)
    /\ (forall k v, In (Update k v) batch -> ~ In (Delete k) batch)
    /\ (forall t,
          In t [Sample.overdue; Sample.due_a_week_ago "b"; Sample.due_a_week_ago "c"] ->
          status t = Active ->
          after (Sample.now - 7 * msPerDay) (targetAt t) = false ->
          (In (Update (id t) Expired) batch /\ ~ In (Delete (id t)) batch)
          \/ (In (Delete (id t)) batch /\ ~ In (Update (id t) Expired) batch)).
Proof.
  eexists; eexists. split; [vm_compute; reflexivity|].
  split; [vm_compute; tauto|].
  eapply (X3_flag_or_delete_never_both Sample.set_back
            (Sample.start
               [Sample.overdue; Sample.due_a_week_ago "b"; Sample.due_a_week_ago "c"])
            [Sample.overdue; Sample.due_a_week_ago "b"; Sample.due_a_week_ago "c"]).
  vm_compute. reflexivity.
Defined.

(** X4.  With both thresholds at 7 days and both filters of app.ts reading
    [targetAt], a run whose clock does not go backwards leaves no status
    update in the batch: every overdue Active item of the snapshot is
    deleted by the run that would have flagged it. *)
Theorem X4_steady_clock_deletes_what_it_flags (env : Env) (w : World)
    (todoItems : list Todo) (batch : list TransactWriteItem) (w' : World) :
  (forall n m, (n <= m)%nat -> clock env n <= clock env m) ->
  AppTs.createTransactItems todoItems env w = (Normal batch, w') ->
  (forall k v, ~ In (Update k v) batch)
  /\ (forall t, In t todoItems -> status t = Active ->
        after (clock env (reads w) - 7 * msPerDay) (targetAt t) = false ->
        In (Delete (id t)) batch).
Proof.
  intros Mono E.
  assert (N : forall k v, ~ In (Update k v) batch)
    by (apply (AppTs_no_update_survives env w todoItems batch w'); assumption).
  split; [exact N|].
  intros t Ht Hs Ha.
  assert (Hf : AppTs.expired_filter (clock env (reads w) - 7 * msPerDay) t = true).
  { rewrite expired_filter_after, Ha, Hs. reflexivity. }
  destruct (AppTs_update_kept_unless_deleted env w todoItems batch w' t E Ht Hf)
    as [_ K2].
  destruct (In_Delete_dec (id t) batch) as [D|D]; [exact D|].
  exfalso. exact (N _ _ (K2 D)).
Qed.

(** X4 at a still clock, on one record without and one with carry-over. *)
Lemma X4_steady_clock_deletes_what_it_flags_witness :
  (forall n m, (n <= m)%nat -> clock Sample.steady n <= clock Sample.steady m)
  /\ exists batch w',
      AppTs.createTransactItems [Sample.overdue; Sample.recurring] Sample.steady
        (Sample.start [Sample.overdue; Sample.recurring])
      = (Normal batch, w')
      /\ (forall k v, ~ In (Update k v) batch)
      /\ (forall t, In t [Sample.overdue; Sample.recurring] -> status t = Active ->
            after (Sample.now - 7 * msPerDay) (targetAt t) = false ->
            In (Delete (id t)) batch).
Proof.
  split; [intros n m _; cbn; lia|].
  eexists; eexists. split; [vm_compute; reflexivity|].
  eapply (X4_steady_clock_deletes_what_it_flags Sample.steady
            (Sample.start [Sample.overdue; Sample.recurring])
            [Sample.overdue; Sample.recurring]).
  - intros n m _. cbn. lia.
  - vm_compute. reflexivity.
Defined.

(** X5.  An Active or Expired item whose [targetAt] is not a date passes
    both filters of app.ts ([NaN > 0] is false): the batch deletes it and
    does not flag it. *)
Theorem X5_undated_item_is_deleted (env : Env) (w : World)
    (todoItems : list Todo) (batch : list TransactWriteItem) (w' : World)
    (t : Todo) (s : string) :
  AppTs.createTransactItems todoItems env w = (Normal batch, w') ->
  In t todoItems ->
  targetAt t = NotADate s ->
  status t = Active \/ status t = Expired ->
  In (Delete (id t)) batch /\ forall v, ~ In (Update (id t) v) batch.
Proof.
  intros E Ht Hd Hs.
  assert (D : In (Delete (id t)) batch).
  { destruct Hs as [Hs|Hs].
    - apply (AppTs_flagged_and_due_is_deleted env w todoItems batch w' t E Ht).
      + rewrite expired_filter_after, Hd, Hs. reflexivity.
      + now rewrite Hd.
    - apply (AppTs_expired_and_due_is_deleted env w todoItems batch w' t E Ht Hs).
      now rewrite Hd. }
  split; [exact D|].
  intros v U. exact (AppTs_no_update_and_delete env w todoItems batch w' _ _ E U D).
Qed.

(** X5 at an Active item whose [targetAt] reads "soon". *)
Lemma X5_undated_item_is_deleted_witness :
  exists batch w',
    AppTs.createTransactItems [Sample2.undated] Sample.steady
      (Sample.start [Sample2.undated])
    = (Normal batch, w')
    /\ In Sample2.undated [Sample2.undated]
    /\ targetAt Sample2.undated = NotADate "soon"
    /\ (status Sample2.undated = Active \/ status Sample2.undated = Expired)
    /\ In (Delete (id Sample2.undated)) batch
    /\ forall v, ~ In (Update (id Sample2.undated) v) batch.
Proof.
  eexists; eexists. split; [vm_compute; reflexivity|].
  split; [now left|]. split; [reflexivity|]. split; [now left|].
  eapply (X5_undated_item_is_deleted Sample.steady (Sample.start [Sample2.undated])
            [Sample2.undated] _ _ Sample2.undated "soon").
  - vm_compute. reflexivity.
  - now left.
  - reflexivity.
  - now left.
Defined.

(** ** The identifiers and keys of a batch of app.ts *)

Lemma put_ids_app (a b : list TransactWriteItem) :
  put_ids (a ++ b) = put_ids a ++ put_ids b.
Proof. unfold put_ids. apply flat_map_app. Qed.

Lemma put_ids_not_superseded (deletes expired : list TransactWriteItem) :
  put_ids (filter (fun item => negb (superseded deletes item)) expired)
  = put_ids expired.
Proof.
  induction expired as [|item l IH]; [reflexivity|].
  destruct item as [k v|it c|k]; simpl.
  - destruct (negb _); simpl; exact IH.
  - now rewrite IH.
  - exact IH.
Qed.

Lemma put_ids_deletes (l : list Todo) :
  put_ids (map (fun t => Delete (id t)) l) = [].
Proof. induction l as [|t l IH]; [reflexivity|exact IH]. Qed.

Lemma turns_put_ids (env : Env) l w items w' :
  turns env l w items w' ->
  (draws w <= draws w')%nat
  /\ (reads w' - reads w = draws w' - draws w)%nat
  /\ (reads w <= reads w')%nat
  /\ put_ids items = map (uuid env) (seq (draws w) (draws w' - draws w)).
Proof.
  induction 1 as [w|t l w items w' H T [IH1 [IH2 [IH3 IH4]]]
                 |t l w succ0 cond0 w1 items w' H T [IH1 [IH2 [IH3 IH4]]]].
  - rewrite !Nat.sub_diag. repeat split; lia.
  - split; [exact IH1|]. split; [exact IH2|]. split; [exact IH3|exact IH4].
  - destruct (AppTs_expired_turn_cases t env w) as [[_ [_ E]]|[_ E]];
      rewrite E in H; inversion H; subst; clear H.
    cbn [reads draws] in IH1, IH2, IH3, IH4.
    split; [lia|]. split; [lia|]. split; [lia|].
    cbn [put_ids flat_map app id]. fold (put_ids items). rewrite IH4.
    replace (draws w' - draws w)%nat with (S (draws w' - S (draws w)))%nat by lia.
    reflexivity.
Qed.

(** X6.  The creates of a batch of app.ts carry, in their order, the
    identifiers [uuid] hands out during the run, one each and none skipped;
    building the batch reads the clock twice and once more per create. *)
Theorem X6_creates_take_the_identifiers_in_order (env : Env) (w : World)
    (todoItems : list Todo) (batch : list TransactWriteItem) (w' : World) :
  AppTs.createTransactItems todoItems env w = (Normal batch, w') ->
  put_ids batch = map (uuid env) (seq (draws w) (draws w' - draws w))
  /\ List.length (filter is_Put batch) = (draws w' - draws w)%nat
  /\ reads w' = (reads w + 2 + (draws w' - draws w))%nat.
Proof.
  intros E.
  destruct (createTransactItems_structure env w todoItems)
    as [expired [w1 [deletes [w2 [_ [T [D [Hd [E' HP]]]]]]]]].
  rewrite E in E'. injection E' as Hb Hw.
  rewrite createDeleteTransactItems_eq in D. injection D as _ D2.
  destruct (turns_put_ids env _ _ _ _ T) as [R1 [R2 [R3 R4]]].
  cbn [new_Date snd reads draws] in R1, R2, R3, R4.
  assert (Hr : reads w' = S (reads w1) /\ draws w' = draws w1).
  { rewrite Hw, <- D2. split; reflexivity. }
  destruct Hr as [Hr1 Hr2]. rewrite Hr1, Hr2.
  assert (P : put_ids batch = put_ids expired).
  { rewrite Hb, put_ids_app, put_ids_not_superseded, Hd, put_ids_deletes.
    apply app_nil_r. }
  split; [now rewrite P|]. split; [|lia].
  rewrite Hb, HP.
  assert (L : forall items, List.length (filter is_Put items)
                            = List.length (put_ids items)).
  { induction items as [|i l IH]; [reflexivity|].
    destruct i; simpl; try exact IH. now rewrite IH. }
  rewrite L, R4, length_map, length_seq. reflexivity.
Qed.

(** X6 on two carried-over records. *)
Lemma X6_creates_take_the_identifiers_in_order_witness :
  exists batch w',
    AppTs.createTransactItems [Sample.recurring; Sample.recurring2] Sample.steady
      (Sample.start [Sample.recurring; Sample.recurring2])
    = (Normal batch, w')
    /\ put_ids batch = ["new0"; "new1"]
    /\ List.length (filter is_Put batch) = 2%nat
    /\ reads w' = 4%nat.
Proof.
  pose proof (X6_creates_take_the_identifiers_in_order Sample.steady
                (Sample.start [Sample.recurring; Sample.recurring2])
                [Sample.recurring; Sample.recurring2] _ _ eq_refl) as H.
  eexists; eexists. split; [vm_compute; reflexivity|exact H].
Defined.

Lemma filter_keeps_keys_apart {K V : Type} (key : V -> K) (keep : V -> bool) :
  forall xs : list V,
    NoDup (map key xs) -> NoDup (map key (filter keep xs)).
Proof.
  intros xs. induction xs as [|x xs IH]; simpl; intros H; [constructor|].
  inversion H as [|? ? N H']; subst.
  destruct (keep x); simpl; [|now apply IH].
  constructor; [|now apply IH].
  intros Hin. apply N. apply in_map_iff in Hin. destruct Hin as [y [E Hy]].
  apply filter_In in Hy. rewrite <- E. apply in_map. tauto.
Qed.

Lemma NoDup_distinct (l : list string) : NoDup l -> distinct l = true.
Proof.
  induction 1 as [|x l N _ IH]; simpl; [reflexivity|].
  rewrite IH, andb_true_r. apply negb_true_iff.
  destruct (existsb (String.eqb x) l) eqn:E; [|reflexivity].
  exfalso. apply N. apply existsb_exists in E. destruct E as [y [Hy E]].
  apply String.eqb_eq in E. now subst.
Qed.

Lemma turns_keys (env : Env) (known : list string) l w items w' :
  turns env l w items w' ->
  NoDup (ids l) ->
  (forall k, In k (ids l) -> In k known) ->
  (forall i j, (draws w <= i < j)%nat -> (j < draws w')%nat ->
               uuid env i <> uuid env j) ->
  (forall j, (draws w <= j < draws w')%nat -> ~ In (uuid env j) known) ->
  NoDup (map key_of items)
  /\ forall k, In k (map key_of items) ->
       In k (ids l) \/ exists j, (draws w <= j < draws w')%nat /\ k = uuid env j.
Proof.
  induction 1 as [w|t l w items w' H T IH
                 |t l w succ0 cond0 w1 items w' H T IH];
    intros ND Sub Inj Fresh.
  - split; [constructor|]. intros k [].
  - cbn [ids map] in ND. inversion ND as [|? ? N ND']; subst.
    destruct IH as [IH1 IH2]; [exact ND'| |exact Inj|exact Fresh|].
    { intros k Hk. apply Sub. now right. }
    split.
    + cbn [map key_of]. constructor; [|exact IH1].
      intros Hin. apply IH2 in Hin. destruct Hin as [Hin|[j [Hj Ej]]].
      * now apply N.
      * apply (Fresh j Hj). rewrite <- Ej. apply Sub. now left.
    + intros k [<-|Hin]; [left; now left|].
      apply IH2 in Hin. destruct Hin as [Hin|Hin]; [left; now right|now right].
  - destruct (turns_put_ids env _ _ _ _ T) as [R _].
    destruct (AppTs_expired_turn_cases t env w) as [[_ [_ E]]|[_ E]];
      rewrite E in H; inversion H; subst; clear H.
    cbn [reads draws] in IH, R.
    cbn [ids map] in ND. inversion ND as [|? ? N ND']; subst.
    destruct IH as [IH1 IH2]; [exact ND'| | | |].
    { intros k Hk. apply Sub. now right. }
    { intros i j Hij Hj. apply Inj; lia. }
    { intros j Hj. apply Fresh. lia. }
    assert (Ft : In (id t) known) by (apply Sub; now left).
    split.
    + cbn [map key_of id]. constructor; [|constructor; [|exact IH1]].
      * intros [Hin|Hin].
        { apply (Fresh (draws w)); [lia|]. now rewrite Hin. }
        apply IH2 in Hin. destruct Hin as [Hin|[j [Hj Ej]]].
        { now apply N. }
        apply (Fresh j); [lia|]. now rewrite <- Ej.
      * intros Hin. apply IH2 in Hin. destruct Hin as [Hin|[j [Hj Ej]]].
        { apply (Fresh (draws w)); [lia|]. apply Sub. now right. }
        apply (Inj (draws w) j); [lia|lia|exact Ej].
    + intros k [<-|[<-|Hin]].
      * left. now left.
      * right. exists (draws w). cbn. split; [lia|reflexivity].
      * apply IH2 in Hin. destruct Hin as [Hin|[j [Hj Ej]]];
          [left; now right|right; exists j; split; [lia|exact Ej]].
Qed.

(** The keys of a batch, under distinct ids and fresh identifiers. *)
Lemma AppTs_batch_keys_distinct (env : Env) (w : World)
    (todoItems : list Todo) (batch : list TransactWriteItem) (w' : World) :
  AppTs.createTransactItems todoItems env w = (Normal batch, w') ->
  NoDup (ids todoItems) ->
  (forall i j, (draws w <= i < j)%nat -> (j < draws w')%nat ->
               uuid env i <> uuid env j) ->
  (forall j, (draws w <= j < draws w')%nat -> ~ In (uuid env j) (ids todoItems)) ->
  distinct (map key_of batch) = true.
Proof.
  intros E ND Inj Fresh. apply NoDup_distinct.
  destruct (createTransactItems_structure env w todoItems)
    as [expired [w1 [deletes [w2 [_ [T [D [Hd [E' _]]]]]]]]].
  rewrite E in E'. injection E' as Hb Hw.
  rewrite createDeleteTransactItems_eq in D. injection D as _ D2.
  assert (Hr : draws w' = draws w1) by (rewrite Hw, <- D2; reflexivity).
  rewrite Hr in Inj, Fresh.
  destruct (turns_keys env (ids todoItems) _ _ _ _ T) as [K1 K2].
  { apply filter_keeps_keys_apart. exact ND. }
  { intros k Hk. unfold ids in *. apply in_map_iff in Hk.
    destruct Hk as [t [<- Ht]]. apply in_map. apply filter_In in Ht. tauto. }
  { exact Inj. }
  { exact Fresh. }
  assert (Kd : map key_of deletes
               = ids (filter (AppTs.delete_filter
                                (clock env (reads w1) - 7 * msPerDay)
                                (updateIds_of expired)) todoItems)).
  { rewrite Hd. unfold ids. rewrite map_map. reflexivity. }
  rewrite Hb, map_app. apply NoDup_app.
  - apply filter_keeps_keys_apart. exact K1.
  - rewrite Kd. apply filter_keeps_keys_apart. exact ND.
  - intros k Hk Hk'.
    assert (Dk : In (Delete k) batch).
    { rewrite Hb. apply in_or_app. right. rewrite Hd.
      rewrite Kd in Hk'. unfold ids in Hk'. apply in_map_iff in Hk'.
      destruct Hk' as [t [<- Ht]]. apply in_map_iff. now exists t. }
    assert (Sk : In k (ids todoItems)).
    { rewrite Kd in Hk'. unfold ids in *. apply in_map_iff in Hk'.
      destruct Hk' as [t [<- Ht]]. apply in_map. apply filter_In in Ht. tauto. }
    apply in_map_iff in Hk. destruct Hk as [item [Ek Hitem]].
    destruct item as [k0 v|s c|k0]; cbn in Ek; subst k.
    + apply (AppTs_no_update_and_delete env w todoItems batch w' k0 v E);
        [|exact Dk].
      rewrite Hb. apply in_or_app. now left.
    + apply filter_In in Hitem. destruct Hitem as [Hitem _].
      destruct (turns_puts env _ _ _ _ T) as [_ [_ P]].
      destruct (P s c Hitem) as [_ [t [k [j [_ [_ [_ [Hj [Ej _]]]]]]]]].
      cbn [new_Date snd draws] in Hj. apply (Fresh j Hj). now rewrite <- Ej.
    + apply filter_In in Hitem. destruct Hitem as [Hitem _].
      destruct (turns_items_shape env _ _ _ _ T) as [S1 _].
      rewrite Forall_forall in S1. apply S1 in Hitem. discriminate Hitem.
Qed.

(** X7.  When the ids of the snapshot are pairwise different and [uuid]
    hands out identifiers that differ from one another and from the ids of
    the snapshot, no two items of the batch of app.ts work on the same key:
    the store has no reason to refuse the batch for touching an item twice. *)
Theorem X7_batch_touches_every_key_once (env : Env) (w : World)
    (todoItems : list Todo) (batch : list TransactWriteItem) (w' : World) :
  AppTs.createTransactItems todoItems env w = (Normal batch, w') ->
  NoDup (ids todoItems) ->
  (forall i j, (draws w <= i < j)%nat -> (j < draws w')%nat ->
               uuid env i <> uuid env j) ->
  (forall j, (draws w <= j < draws w')%nat -> ~ In (uuid env j) (ids todoItems)) ->
  distinct (map key_of batch) = true.
Proof. apply AppTs_batch_keys_distinct. Qed.

(** X7 on three items, one of them carried over. *)
Lemma X7_batch_touches_every_key_once_witness :
  exists batch w',
    AppTs.createTransactItems
      [Sample.overdue; Sample.recurring; Sample.flagged_long_ago] Sample.steady
      (Sample.start [Sample.overdue; Sample.recurring; Sample.flagged_long_ago])
    = (Normal batch, w')
    /\ NoDup (ids [Sample.overdue; Sample.recurring; Sample.flagged_long_ago])
    /\ distinct (map key_of batch) = true.
Proof.
  assert (ND : NoDup (ids [Sample.overdue; Sample.recurring; Sample.flagged_long_ago])).
  { apply distinct_NoDup. reflexivity. }
  pose proof (X7_batch_touches_every_key_once Sample.steady
                (Sample.start [Sample.overdue; Sample.recurring; Sample.flagged_long_ago])
                [Sample.overdue; Sample.recurring; Sample.flagged_long_ago]
                _ _ eq_refl ND) as H.
  eexists; eexists. split; [vm_compute; reflexivity|]. split; [exact ND|].
  apply H.
  - intros i j Hij Hj. cbn in Hij, Hj. lia.
  - intros j Hj. cbn in Hj. assert (j = 0%nat) as -> by lia.
    cbn. intros [X|[X|[X|[]]]]; discriminate X.
Defined.

(** ** The requests of a run of app.ts *)

(** X8.  A run of app.ts never throws and sends one scan first; it then
    sends nothing more (and the table is as it was), or exactly one
    transaction, which is the batch built from the scanned items and is not
    empty.  It sends no query and no single delete. *)
Theorem X8_one_scan_at_most_one_transaction (env : Env) (w : World) :
  exists resp w',
    AppTs.lambdaHandler env w = (Normal resp, w')
    /\ ((new_requests w w' = [ReqScan] /\ table w' = table w)
        \/ exists batch,
            batch <> []
            /\ fst (AppTs.createTransactItems (table w) env (sent ReqScan w))
               = Normal batch
            /\ new_requests w w' = [ReqScan; ReqTransactWrite batch]).
Proof.
  destruct (AppTs_lambdaHandler_cases env w)
    as [[R E]|[[R E]|[R [batch [w1 [C [[S1 [S2 S3]] H]]]]]]].
  - eexists; eexists. split; [exact E|]. left.
    split; [apply new_requests_app|]; reflexivity.
  - eexists; eexists. split; [exact E|]. left.
    split; [apply new_requests_app|]; reflexivity.
  - cbn [table requests sent] in S1, S2.
    assert (NE : transactWrite batch env w1
                 = (Normal tt, with_table (fold_left apply_item batch (table w1))
                                          (sent (ReqTransactWrite batch) w1)) ->
                 batch <> []).
    { intros T. destruct (transactWrite_cases batch env w1) as [[e X]|[_ [X _]]];
        [rewrite X in T; discriminate T|exact X]. }
    destruct H as [[B E]|[[e [T E]]|[T E]]]; eexists; eexists;
      (split; [exact E|]).
    + left. split; [apply new_requests_app; exact S2|exact S1].
    + right. exists batch. split.
      { intros ->. unfold AppTs.lambdaHandler in E.
        rewrite (bind_normal _ _ _ _ _ _
                   (eq_trans (getTodoItems_cases env w)
                             ltac:(rewrite R; reflexivity))) in E.
        rewrite (bind_normal _ _ _ _ _ _ C) in E. cbn in E.
        injection E as X _. discriminate X. }
      split; [now rewrite C|].
      apply new_requests_app. cbn [snd console_log requests sent].
      rewrite S2, <- app_assoc. reflexivity.
    + right. exists batch. split; [now apply NE|]. split; [now rewrite C|].
      apply new_requests_app. cbn [with_table requests sent].
      rewrite S2, <- app_assoc. reflexivity.
Qed.

(** ** Loops of app.js *)

Lemma for_of_sent {A} (P : Request -> Prop) (body : A -> Js unit) (env : Env)
    (l : list A) :
  (forall x w, In x l ->
     exists extra, requests (snd (body x env w)) = requests w ++ extra
                   /\ requests_ok P extra) ->
  forall w,
    exists extra, requests (snd (for_of l body env w)) = requests w ++ extra
                  /\ requests_ok P extra.
Proof.
  induction l as [|x l IH]; intros Hb w.
  - exists []. simpl. rewrite app_nil_r. split; [reflexivity|intros r []].
  - cbn [for_of]. unfold bind.
    destruct (Hb x w (or_introl eq_refl)) as [e1 [E1 O1]].
    destruct (body x env w) as [[[]|e] w1] eqn:B; cbn [snd] in E1.
    + destruct (IH (fun y w0 Hy => Hb y w0 (or_intror Hy)) w1) as [e2 [E2 O2]].
      exists (e1 ++ e2). rewrite E2, E1, <- app_assoc. split; [reflexivity|].
      intros r Hr. apply in_app_or in Hr. destruct Hr; [now apply O1|now apply O2].
    + exists e1. split; [exact E1|exact O1].
Qed.

Lemma for_of_invariant {A} (I : World -> Prop) (body : A -> Js unit) (env : Env)
    (l : list A) :
  (forall x w, In x l -> I w -> I (snd (body x env w))) ->
  forall w, I w -> I (snd (for_of l body env w)).
Proof.
  induction l as [|x l IH]; intros Hb w Hw; [exact Hw|].
  cbn [for_of]. unfold bind.
  pose proof (Hb x w (or_introl eq_refl) Hw) as H1.
  destruct (body x env w) as [[[]|e] w1]; cbn [snd] in H1; [|exact H1].
  apply IH; [|exact H1]. intros y w0 Hy. apply Hb. now right.
Qed.

Lemma for_of_idle {A} (body : A -> Js unit) (env : Env) (l : list A) (w : World) :
  (forall x, In x l -> body x env w = (Normal tt, w)) ->
  for_of l body env w = (Normal tt, w).
Proof.
  induction l as [|x l IH]; intros H; [reflexivity|].
  cbn [for_of]. rewrite (bind_normal _ _ _ _ _ _ (H x (or_introl eq_refl))).
  apply IH. intros y Hy. apply H. now right.
Qed.

Lemma AppJs_expired_body_idle (stamp : DateString) (t : Todo) env w :
  ToBoolean (carryOver t) = false ->
  AppJs.expired_body stamp t env w = (Normal tt, w).
Proof.
  intros C. unfold AppJs.expired_body, AppJs.transactItems_of.
  rewrite C. reflexivity.
Qed.

(** X9.  When no Active item of the table has a truthy [carryOver],
    [expiredTodo] of app.js sends its query and nothing else and leaves the
    table as it was, whatever is overdue: a record that is not carried over
    is never flagged. *)
Theorem X9_without_carry_over_nothing_is_flagged (env : Env) (w : World) :
  (forall t, In t (table w) -> status t = Active ->
             ToBoolean (carryOver t) = false) ->
  table (snd (AppJs.expiredTodo env w)) = table w
  /\ new_requests w (snd (AppJs.expiredTodo env w)) = [ReqQuery Active].
Proof.
  intros H.
  assert (X : exists c w', AppJs.expiredTodo env w = (c, w')
                           /\ table w' = table w
                           /\ requests w' = requests w ++ [ReqQuery Active]).
  { unfold AppJs.expiredTodo, try_catch.
    unfold bind at 1. unfold query.
    destruct (refused (reply env (calls w))).
    - eexists; eexists. split; [reflexivity|]. split; reflexivity.
    - destruct (Nat.ltb 0 _).
      + unfold bind at 1. unfold new_Date at 1.
        unfold bind at 1. unfold new_Date at 1.
        rewrite for_of_idle.
        * eexists; eexists. split; [reflexivity|]. split; reflexivity.
        * intros t Ht. apply AppJs_expired_body_idle.
          rewrite expired_reducer_filter in Ht. apply filter_In in Ht.
          destruct Ht as [Ht _]. apply filter_In in Ht. destruct Ht as [Ht Hs].
          apply H; [exact Ht|]. now apply Z.eqb_eq in Hs.
      + eexists; eexists. split; [reflexivity|]. split; reflexivity. }
  destruct X as [c [w' [E [Ht Hr]]]]. rewrite E. cbn [snd].
  split; [exact Ht|]. now apply new_requests_app.
Qed.

(** X9 on a table with one overdue record that is not carried over. *)
Lemma X9_without_carry_over_nothing_is_flagged_witness :
  (forall t, In t (table (Sample.start [Sample.overdue])) -> status t = Active ->
             ToBoolean (carryOver t) = false)
  /\ table (snd (AppJs.expiredTodo Sample.steady (Sample.start [Sample.overdue])))
     = table (Sample.start [Sample.overdue])
  /\ new_requests (Sample.start [Sample.overdue])
       (snd (AppJs.expiredTodo Sample.steady (Sample.start [Sample.overdue])))
     = [ReqQuery Active].
Proof.
  assert (H : forall t, In t (table (Sample.start [Sample.overdue])) ->
                        status t = Active -> ToBoolean (carryOver t) = false).
  { intros t [<-|[]] _. reflexivity. }
  split; [exact H|].
  exact (X9_without_carry_over_nothing_is_flagged Sample.steady
           (Sample.start [Sample.overdue]) H).
Defined.

(** ** What app.js writes, and for which records *)

Lemma AppJs_expired_body_carried (env : Env) (stamp : DateString) (t : Todo) w :
  exists extra,
    requests (snd (AppJs.expired_body stamp t env w)) = requests w ++ extra
    /\ writes_ok (js_carried_transaction [t]) extra.
Proof.
  unfold AppJs.expired_body.
  destruct (AppJs_transactItems_of_cases stamp t env w) as [[C [_ E]]|[_ E]];
    rewrite (bind_normal _ _ _ _ _ _ E).
  - rewrite C, transactWrite_requests. eexists. split; [reflexivity|].
    intros items [Hi|[]]. injection Hi as <-.
    exists t. split; [now left|]. split; [exact C|].
    right. eexists; eexists; reflexivity.
  - destruct (ToBoolean (carryOver t)) eqn:C.
    + rewrite transactWrite_requests. eexists. split; [reflexivity|].
      intros items [Hi|[]]. injection Hi as <-.
      exists t. split; [now left|]. split; [exact C|now left].
    + exists []. cbn. rewrite app_nil_r. split; [reflexivity|apply writes_ok_nil].
Qed.

Lemma AppJs_expiredTodo_carried (env : Env) (w : World) :
  exists extra,
    requests (snd (AppJs.expiredTodo env w)) = requests w ++ ReqQuery 0 :: extra
    /\ writes_ok (js_carried_transaction (js_expiring env w)) extra.
Proof.
  unfold AppJs.expiredTodo. rewrite try_catch_log_requests.
  unfold bind at 1. unfold query.
  destruct (refused (reply env (calls w))).
  - exists []. split; [reflexivity|apply writes_ok_nil].
  - set (data := filter (fun r => status r =? 0) (table w)).
    destruct (Nat.ltb 0 (List.length data)).
    + unfold bind at 1. unfold new_Date at 1.
      unfold bind at 1. unfold new_Date at 1.
      rewrite expired_reducer_filter. cbn [reads sent].
      match goal with
      | |- context [for_of ?l ?b env ?w1] =>
          destruct (for_of_requests (js_carried_transaction l) b env l)
            with (w := w1) as [extra [E O]]
      end.
      { intros t w0 Hin.
        destruct (AppJs_expired_body_carried env
                    (toISOString (clock env (S (reads w)))) t w0) as [e [E O]].
        exists e. split; [exact E|].
        eapply writes_ok_weaken; [|exact O].
        intros items [t' [[<-|[]] R]]. exists t. split; [exact Hin|exact R]. }
      exists extra. rewrite E. cbn [requests sent].
      rewrite <- app_assoc. split; [reflexivity|exact O].
    + exists []. split; [reflexivity|apply writes_ok_nil].
Qed.

Lemma AppJs_run_carried (env : Env) (w : World) :
  writes_ok (js_carried_transaction (js_expiring env w))
            (new_requests w (snd (AppJs.lambdaHandler env w))).
Proof.
  rewrite AppJs_lambdaHandler_world.
  destruct (AppJs_expiredTodo_carried env w) as [e1 [E1 O1]].
  destruct (AppJs_deleteTodo_requests env (snd (AppJs.expiredTodo env w)))
    as [e2 [E2 O2]].
  rewrite (new_requests_app w _ ((ReqQuery 0 :: e1) ++ e2)).
  - apply writes_ok_app.
    + intros items [H|H]; [discriminate H|now apply O1].
    + intros items H. exfalso. exact (O2 items H).
  - rewrite E2, E1, <- app_assoc. reflexivity.
Qed.

(** X10.  Every transaction a run of app.js sends is for an item that was in
    the table when the run began, Active, with a [targetAt] that is a date
    strictly before the first clock reading minus 7 days, and with a truthy
    [carryOver]; it holds the status update of that item, alone or followed
    by one create. *)
Theorem X10_transactions_only_for_carried_overdue_items (env : Env) (w : World)
    (items : list TransactWriteItem) :
  In (ReqTransactWrite items) (new_requests w (snd (AppJs.lambdaHandler env w))) ->
  exists t u,
    In t (table w) /\ status t = Active
    /\ targetAt t = Iso u /\ u < clock env (reads w) - 7 * msPerDay
    /\ ToBoolean (carryOver t) = true
    /\ (items = [Update (id t) Expired]
        \/ exists succ cond, items = [Update (id t) Expired; Put succ cond]).
Proof.
  intros Hin.
  destruct (AppJs_run_carried env w items Hin) as [t [Ht [C S]]].
  unfold js_expiring in Ht. apply filter_In in Ht. destruct Ht as [Ht Hb].
  apply filter_In in Ht. destruct Ht as [Ht Hs].
  destruct (targetAt t) as [u|s] eqn:Et; [|discriminate Hb].
  exists t, u. rewrite Et. split; [exact Ht|]. split; [now apply Z.eqb_eq in Hs|].
  split; [reflexivity|]. split; [now apply Z.ltb_lt in Hb|].
  split; [exact C|exact S].
Qed.

(** X10 on a run over one carried-over and one plain overdue record. *)
Lemma X10_transactions_only_for_carried_overdue_items_witness :
  exists items,
    In (ReqTransactWrite items)
       (new_requests (Sample.start [Sample.overdue; Sample.recurring])
          (snd (AppJs.lambdaHandler Sample.steady
                  (Sample.start [Sample.overdue; Sample.recurring]))))
    /\ exists t u,
        In t [Sample.overdue; Sample.recurring] /\ status t = Active
        /\ targetAt t = Iso u /\ u < Sample.now - 7 * msPerDay
        /\ ToBoolean (carryOver t) = true
        /\ (items = [Update (id t) Expired]
            \/ exists succ cond, items = [Update (id t) Expired; Put succ cond]).
Proof.
  eexists. split; [vm_compute; right; left; reflexivity|].
  apply (X10_transactions_only_for_carried_overdue_items Sample.steady
           (Sample.start [Sample.overdue; Sample.recurring])).
  vm_compute. right. left. reflexivity.
Defined.

(** ** What a run of app.js leaves of the table *)

Lemma flagged_or_same_refl (t : list Todo) : Forall2 flagged_or_same t t.
Proof. induction t as [|r t IH]; constructor; [now left|exact IH]. Qed.

Lemma flagged_or_same_set_status (k : string) (t0 l : list Todo) :
  Forall2 flagged_or_same t0 l ->
  Forall2 flagged_or_same t0 (set_status k Expired l).
Proof.
  induction 1 as [|x y t0 l R _ IH]; [constructor|].
  unfold set_status. cbn [map]. constructor; [|exact IH].
  destruct (String.eqb (id y) k); [|exact R].
  destruct R as [-> | ->]; right; reflexivity.
Qed.

Lemma remove_key_notin (k : string) (t : list Todo) :
  ~ In k (ids t) -> remove_key k t = t.
Proof.
  unfold remove_key, ids. induction t as [|r t IH]; intros N; [reflexivity|].
  cbn [filter]. destruct (String.eqb (id r) k) eqn:E.
  - exfalso. apply N. left. now apply String.eqb_eq in E.
  - cbn [negb]. f_equal. apply IH. intros H. apply N. now right.
Qed.

Lemma set_status_app (k : string) (v : Z) (a b : list Todo) :
  set_status k v (a ++ b) = set_status k v a ++ set_status k v b.
Proof. unfold set_status. apply map_app. Qed.

Lemma try_catch_log_table (m : Js unit) env w :
  table (snd (try_catch m (fun error => console_log error) env w))
  = table (snd (m env w)).
Proof. unfold try_catch. destruct (m env w) as [[[]|e] w1]; reflexivity. Qed.

Lemma added_successor_set_status (data : list Todo) (k : string)
    (added : list Todo) :
  Forall (added_successor data) added ->
  Forall (added_successor data) (set_status k Expired added).
Proof.
  intros F. apply Forall_forall. intros x Hx.
  unfold set_status in Hx. apply in_map_iff in Hx. destruct Hx as [y [<- Hy]].
  rewrite Forall_forall in F. specialize (F y Hy).
  destruct (String.eqb (id y) k); [|exact F].
  destruct F as [t [s0 [Ht [C [O [S R]]]]]].
  exists t, s0. split; [exact Ht|]. split; [exact C|]. split; [exact O|].
  split; [exact S|]. destruct R as [-> | ->]; right; reflexivity.
Qed.

Lemma AppJs_expired_body_frame (t0 data : list Todo) (stamp : DateString)
    (t : Todo) env w :
  In t data ->
  (exists l added, table w = l ++ added /\ Forall2 flagged_or_same t0 l
                   /\ Forall (added_successor data) added) ->
  exists l added,
    table (snd (AppJs.expired_body stamp t env w)) = l ++ added
    /\ Forall2 flagged_or_same t0 l
    /\ Forall (added_successor data) added.
Proof.
  intros Hin [l [added [Ht [F A]]]]. unfold AppJs.expired_body.
  assert (U : forall w1, table w1 = table w ->
              exists l' added',
                table (snd (transactWrite [Update (id t) 1] env w1)) = l' ++ added'
                /\ Forall2 flagged_or_same t0 l'
                /\ Forall (added_successor data) added').
  { intros w1 E1.
    destruct (transactWrite_cases [Update (id t) 1] env w1) as [[e X]|[X _]];
      rewrite X; cbn [snd table sent with_table fold_left apply_item]; rewrite E1, Ht.
    - now exists l, added.
    - rewrite set_status_app. eexists; eexists. split; [reflexivity|].
      split; [now apply flagged_or_same_set_status|].
      now apply added_successor_set_status. }
  destruct (AppJs_transactItems_of_cases stamp t env w) as [[C [O E]]|[_ E]];
    rewrite (bind_normal _ _ _ _ _ _ E).
  - rewrite C.
    match goal with
    | |- context [transactWrite ?items env ?w1] =>
        destruct (transactWrite_cases items env w1) as [[e X]|[X _]];
          [rewrite X; cbn [snd table sent]; now exists l, added|];
          pose proof (transactWrite_accepted items env w1 _ _ X
                        (or_intror (or_introl eq_refl))) as [N _];
          rewrite X
    end.
    cbn [snd table sent with_table fold_left apply_item] in *.
    unfold put_item. cbn [id] in *.
    rewrite remove_key_notin by (now rewrite ids_set_status).
    rewrite Ht, set_status_app, <- app_assoc.
    eexists; eexists. split; [reflexivity|].
    split; [now apply flagged_or_same_set_status|].
    apply Forall_app. split; [now apply added_successor_set_status|].
    constructor; [|constructor].
    eexists t, _. split; [exact Hin|]. split; [exact C|]. split; [exact O|].
    split; [|left; reflexivity]. repeat split.
  - destruct (ToBoolean (carryOver t)).
    + apply U. reflexivity.
    + now exists l, added.
Qed.

(** X11.  [expiredTodo] of app.js never removes or replaces an item: after
    it, whatever failed, the table is the old table, item by item in place,
    each item unchanged or changed in its [status] alone (to Expired),
    followed by the successors that were added and by nothing else: each of
    them is the successor of an item that was Active and overdue when the
    run began, is carried over and has an open sub-item (a successor may
    have been flagged since, in its [status] alone). *)
Theorem X11_expiredTodo_only_flags_and_adds (env : Env) (w : World) :
  exists l added,
    table (snd (AppJs.expiredTodo env w)) = l ++ added
    /\ Forall2 flagged_or_same (table w) l
    /\ Forall (added_successor (js_expiring env w)) added.
Proof.
  unfold AppJs.expiredTodo. rewrite try_catch_log_table.
  unfold bind at 1. unfold query.
  assert (Z0 : exists l added, table w = l ++ added
                               /\ Forall2 flagged_or_same (table w) l
                               /\ Forall (added_successor (js_expiring env w)) added).
  { exists (table w), []. rewrite app_nil_r. split; [reflexivity|].
    split; [apply flagged_or_same_refl|constructor]. }
  destruct (refused (reply env (calls w))); [exact Z0|].
  destruct (Nat.ltb 0 _); [|exact Z0].
  unfold bind at 1. unfold new_Date at 1.
  unfold bind at 1. unfold new_Date at 1.
  rewrite expired_reducer_filter. cbn [reads sent].
  apply (for_of_invariant
           (fun w1 => exists l added,
                table w1 = l ++ added
                /\ Forall2 flagged_or_same (table w) l
                /\ Forall (added_successor (js_expiring env w)) added)).
  - intros t w1 Hin I.
    apply (AppJs_expired_body_frame (table w) (js_expiring env w)); [exact Hin|exact I].
  - exact Z0.
Qed.

Lemma delete_table (k : string) env w :
  table (snd (delete k env w)) = table w
  \/ table (snd (delete k env w)) = remove_key k (table w).
Proof. unfold delete. destruct (refused _); [now left|now right]. Qed.

Lemma delete_keeps_the_rest (t0 : list Todo) (ks : list string) (k : string)
    env w :
  In k ks ->
  (forall r, In r (table w) -> In r t0)
  /\ (forall r, In r t0 -> ~ In (id r) ks -> In r (table w)) ->
  (forall r, In r (table (snd (delete k env w))) -> In r t0)
  /\ (forall r, In r t0 -> ~ In (id r) ks -> In r (table (snd (delete k env w)))).
Proof.
  intros Hk [I1 I2].
  destruct (delete_table k env w) as [E|E]; rewrite E; [now split|].
  unfold remove_key. split.
  - intros r Hr. apply filter_In in Hr. now apply I1.
  - intros r Hr Hn. apply filter_In. split; [now apply I2|].
    apply negb_true_iff, String.eqb_neq. intros Eq. apply Hn. now rewrite Eq.
Qed.

Lemma AppJs_deleteTodo_world (env : Env) (w : World) :
  (forall r, In r (table (snd (AppJs.deleteTodo env w))) -> In r (table w))
  /\ (forall r, In r (table w) ->
        ~ In (id r)
             (map id (filter (fun r => before (clock env (reads w) - 7 * msPerDay)
                                              (updatedAt r))
                             (filter (fun r => status r =? Expired) (table w)))) ->
        In r (table (snd (AppJs.deleteTodo env w))))
  /\ exists extra,
      requests (snd (AppJs.deleteTodo env w))
      = requests w ++ ReqQuery Expired :: extra
      /\ requests_ok
           (fun q => exists k,
                q = ReqDelete k
                /\ In k (map id
                           (filter (fun r => before (clock env (reads w) - 7 * msPerDay)
                                                    (updatedAt r))
                                   (filter (fun r => status r =? Expired) (table w)))))
           extra.
Proof.
  set (ks := map id (filter (fun r => before (clock env (reads w) - 7 * msPerDay)
                                             (updatedAt r))
                            (filter (fun r => status r =? Expired) (table w)))).
  unfold AppJs.deleteTodo. rewrite try_catch_log_table, try_catch_log_requests.
  match goal with
  | |- context [snd (?m env w)] => set (M := m)
  end.
  assert (X : exists c w1,
             M env w = (c, w1)
             /\ (forall r, In r (table w1) -> In r (table w))
             /\ (forall r, In r (table w) -> ~ In (id r) ks -> In r (table w1))
             /\ exists extra,
                 requests w1 = requests w ++ ReqQuery Expired :: extra
                 /\ requests_ok (fun q => exists k, q = ReqDelete k /\ In k ks) extra).
  { subst M. unfold bind at 1. unfold query.
    assert (T0 : forall w0 : World,
               table w0 = table w -> requests w0 = requests w ++ [ReqQuery 1] ->
               (forall r, In r (table w0) -> In r (table w))
               /\ (forall r, In r (table w) -> ~ In (id r) ks -> In r (table w0))
               /\ exists extra,
                   requests w0 = requests w ++ ReqQuery Expired :: extra
                   /\ requests_ok (fun q => exists k, q = ReqDelete k /\ In k ks) extra).
    { intros w0 Et Er. rewrite Et. split; [tauto|]. split; [tauto|].
      exists []. split; [exact Er|intros q []]. }
    destruct (refused (reply env (calls w))).
    - eexists; eexists. split; [reflexivity|]. apply T0; reflexivity.
    - destruct (Nat.eqb _ 0).
      + eexists; eexists. split; [reflexivity|]. apply T0; reflexivity.
      + unfold bind at 1. unfold new_Date at 1.
        rewrite delete_reducer_filter.
        change (fun deleteTargetId : string => delete deleteTargetId) with delete.
        cbn [reads sent].
        replace (setDate_plus (clock env (reads w)) (- dataDeleteDate))
          with (clock env (reads w) - 7 * msPerDay)
          by (unfold setDate_plus, dataDeleteDate; lia).
        change 1 with Expired. fold ks.
        match goal with
        | |- context [for_of ks delete env ?w0] => set (w0' := w0)
        end.
        destruct (for_of ks delete env w0') as [c w1] eqn:F.
        exists c, w1. split; [reflexivity|].
        pose proof (for_of_invariant
                      (fun w2 => (forall r, In r (table w2) -> In r (table w))
                                 /\ (forall r, In r (table w) -> ~ In (id r) ks ->
                                                In r (table w2)))
                      delete env ks
                      (fun k w2 Hk I => delete_keeps_the_rest (table w) ks k env w2 Hk I)
                      w0') as Inv.
        rewrite F in Inv. cbn [snd] in Inv.
        destruct Inv as [I1 I2]; [split; intros r Hr; [exact Hr|intros _; exact Hr]|].
        split; [exact I1|]. split; [exact I2|].
        destruct (for_of_sent (fun q => exists k, q = ReqDelete k /\ In k ks)
                    delete env ks) with (w := w0') as [extra [E O]].
        { intros k w2 Hk. exists [ReqDelete k]. split; [apply delete_requests|].
          intros q [<-|[]]. now exists k. }
        rewrite F in E. cbn [snd] in E.
        exists extra. rewrite E. subst w0'. cbn [requests sent].
        rewrite <- app_assoc. split; [reflexivity|exact O]. }
  destruct X as [c [w1 [E P]]]. rewrite E. exact P.
Qed.

(** X12.  [deleteTodo] of app.js only removes: whatever fails, every item
    left in the table was there before, unchanged; an item that shares its
    id with no Expired item last updated strictly before the clock reading
    minus 7 days is still there; and after its query it sends nothing but
    deletes of such Expired items (an item whose [updatedAt] is not a date
    is never deleted). *)
Theorem X12_deleteTodo_removes_only_stale_expired (env : Env) (w : World) :
  (forall r, In r (table (snd (AppJs.deleteTodo env w))) -> In r (table w))
  /\ (forall r, In r (table w) ->
        (forall t u, In t (table w) -> status t = Expired ->
                     updatedAt t = Iso u ->
                     u < clock env (reads w) - 7 * msPerDay -> id t <> id r) ->
        In r (table (snd (AppJs.deleteTodo env w))))
  /\ exists extra,
      new_requests w (snd (AppJs.deleteTodo env w)) = ReqQuery Expired :: extra
      /\ requests_ok
           (fun q => exists t u,
                q = ReqDelete (id t) /\ In t (table w) /\ status t = Expired
                /\ updatedAt t = Iso u
                /\ u < clock env (reads w) - 7 * msPerDay)
           extra.
Proof.
  destruct (AppJs_deleteTodo_world env w) as [A [B [extra [E O]]]].
  assert (K : forall k,
             In k (map id (filter (fun r => before (clock env (reads w) - 7 * msPerDay)
                                                   (updatedAt r))
                                  (filter (fun r => status r =? Expired) (table w)))) ->
             exists t u, k = id t /\ In t (table w) /\ status t = Expired
                         /\ updatedAt t = Iso u
                         /\ u < clock env (reads w) - 7 * msPerDay).
  { intros k Hk. apply in_map_iff in Hk. destruct Hk as [t [<- Ht]].
    apply filter_In in Ht. destruct Ht as [Ht Hb].
    apply filter_In in Ht. destruct Ht as [Ht Hs].
    destruct (updatedAt t) as [u|s] eqn:Eu; [|discriminate Hb].
    exists t, u. rewrite Eu. split; [reflexivity|]. split; [exact Ht|].
    split; [now apply Z.eqb_eq in Hs|]. split; [reflexivity|].
    now apply Z.ltb_lt in Hb. }
  split; [exact A|]. split.
  - intros r Hr Hn. apply B; [exact Hr|]. intros Hk.
    destruct (K _ Hk) as [t [u [Ek [Ht [Hs [Eu Hu]]]]]].
    apply (Hn t u Ht Hs Eu Hu). now symmetry.
  - exists extra. split; [now apply new_requests_app|].
    intros q Hq. destruct (O q Hq) as [k [-> Hk]].
    destruct (K _ Hk) as [t [u [-> R]]]. now exists t, u.
Qed.

(** ** The two halves of a run of app.js *)

Lemma AppJs_expired_body_sends (stamp : DateString) (t : Todo) env w :
  exists extra,
    requests (snd (AppJs.expired_body stamp t env w)) = requests w ++ extra
    /\ requests_ok (fun q => exists items, q = ReqTransactWrite items) extra.
Proof.
  destruct (AppJs_expired_body_requests env stamp t w) as [extra [E _]].
  unfold AppJs.expired_body in *.
  destruct (AppJs_transactItems_of_cases stamp t env w) as [[C [_ X]]|[_ X]];
    rewrite (bind_normal _ _ _ _ _ _ X) in *.
  - rewrite C. rewrite transactWrite_requests. eexists. split; [reflexivity|].
    intros q [<-|[]]. eexists; reflexivity.
  - destruct (ToBoolean (carryOver t)).
    + rewrite transactWrite_requests. eexists. split; [reflexivity|].
      intros q [<-|[]]. eexists; reflexivity.
    + exists []. cbn. rewrite app_nil_r. split; [reflexivity|intros q []].
Qed.

Lemma AppJs_expiredTodo_sends (env : Env) (w : World) :
  exists extra,
    requests (snd (AppJs.expiredTodo env w)) = requests w ++ ReqQuery Active :: extra
    /\ requests_ok (fun q => exists items, q = ReqTransactWrite items) extra.
Proof.
  unfold AppJs.expiredTodo. rewrite try_catch_log_requests.
  unfold bind at 1. unfold query.
  destruct (refused (reply env (calls w))).
  - exists []. split; [reflexivity|intros q []].
  - destruct (Nat.ltb 0 _).
    + unfold bind at 1. unfold new_Date at 1.
      unfold bind at 1. unfold new_Date at 1.
      match goal with
      | |- context [for_of ?l ?b env ?w1] =>
          destruct (for_of_sent (fun q => exists items, q = ReqTransactWrite items)
                      b env l) with (w := w1) as [extra [E O]]
      end.
      { intros t w0 _. apply AppJs_expired_body_sends. }
      exists extra. rewrite E. cbn [requests sent].
      rewrite <- app_assoc. split; [reflexivity|exact O].
    + exists []. split; [reflexivity|intros q []].
Qed.

Lemma for_of_console {A} (body : A -> Js unit) (env : Env) (l : list A) :
  (forall x w, console (snd (body x env w)) = console w) ->
  forall w, console (snd (for_of l body env w)) = console w.
Proof.
  intros H w.
  apply (for_of_invariant (fun w1 => console w1 = console w) body env l);
    [|reflexivity].
  intros x w1 _ I. now rewrite H.
Qed.

Lemma try_catch_log_console (m : Js unit) env w :
  console (snd (m env w)) = console w ->
  exists logged,
    console (snd (try_catch m (fun error => console_log error) env w))
    = console w ++ logged
    /\ (List.length logged <= 1)%nat
    /\ (logged = [] <-> exists w', m env w = (Normal tt, w')).
Proof.
  intros H. unfold try_catch. destruct (m env w) as [[[]|e] w1]; cbn [snd] in *.
  - exists []. rewrite app_nil_r. split; [exact H|]. split; [cbn; lia|].
    split; [intros _; now exists w1|reflexivity].
  - exists [e]. cbn. rewrite H. split; [reflexivity|]. split; [lia|].
    split; [discriminate|]. intros [w' X]. discriminate X.
Qed.

Lemma transactWrite_console (items : list TransactWriteItem) env w :
  console (snd (transactWrite items env w)) = console w.
Proof.
  destruct (transactWrite_cases items env w) as [[e E]|[E _]]; rewrite E;
    reflexivity.
Qed.

Lemma delete_console (k : string) env w :
  console (snd (delete k env w)) = console w.
Proof. unfold delete. destruct (refused _); reflexivity. Qed.

Lemma AppJs_expired_body_console (stamp : DateString) (t : Todo) env w :
  console (snd (AppJs.expired_body stamp t env w)) = console w.
Proof.
  unfold AppJs.expired_body.
  destruct (AppJs_transactItems_of_cases stamp t env w) as [[C [_ X]]|[_ X]];
    rewrite (bind_normal _ _ _ _ _ _ X).
  - rewrite C. now rewrite transactWrite_console.
  - destruct (ToBoolean (carryOver t)); [now rewrite transactWrite_console|].
    reflexivity.
Qed.

Lemma AppJs_expiredTodo_logs (env : Env) (w : World) :
  exists logged,
    console (snd (AppJs.expiredTodo env w)) = console w ++ logged
    /\ (List.length logged <= 1)%nat.
Proof.
  unfold AppJs.expiredTodo.
  match goal with
  | |- context [try_catch ?m _ env w] =>
      destruct (try_catch_log_console m env w) as [logged [E [L _]]]
  end.
  - unfold bind at 1. unfold query.
    destruct (refused (reply env (calls w))); [reflexivity|].
    destruct (Nat.ltb 0 _); [|reflexivity].
    unfold bind at 1. unfold new_Date at 1.
    unfold bind at 1. unfold new_Date at 1.
    rewrite for_of_console; [reflexivity|].
    intros t w0. apply AppJs_expired_body_console.
  - exists logged. split; [exact E|exact L].
Qed.

Lemma AppJs_deleteTodo_logs (env : Env) (w : World) :
  exists logged,
    console (snd (AppJs.deleteTodo env w)) = console w ++ logged
    /\ (List.length logged <= 1)%nat.
Proof.
  unfold AppJs.deleteTodo.
  match goal with
  | |- context [try_catch ?m _ env w] =>
      destruct (try_catch_log_console m env w) as [logged [E [L _]]]
  end.
  - unfold bind at 1. unfold query.
    destruct (refused (reply env (calls w))); [reflexivity|].
    destruct (Nat.eqb _ 0); [reflexivity|].
    unfold bind at 1. unfold new_Date at 1.
    rewrite for_of_console; [reflexivity|].
    intros k w0. apply delete_console.
  - exists logged. split; [exact E|exact L].
Qed.

(** X13.  A run of app.js always goes through both halves: it sends the
    query for the Active items, then only transactions, then the query for
    the Expired items, then only deletes, even when a request of the first
    half failed; and it logs at most two errors, one per half. *)
Theorem X13_both_halves_always_run (env : Env) (w : World) :
  exists e1 e2 logged,
    new_requests w (snd (AppJs.lambdaHandler env w))
    = ReqQuery Active :: e1 ++ ReqQuery Expired :: e2
    /\ requests_ok (fun q => exists items, q = ReqTransactWrite items) e1
    /\ requests_ok (fun q => exists k, q = ReqDelete k) e2
    /\ console (snd (AppJs.lambdaHandler env w)) = console w ++ logged
    /\ (List.length logged <= 2)%nat.
Proof.
  rewrite AppJs_lambdaHandler_world.
  destruct (AppJs_expiredTodo_sends env w) as [e1 [E1 O1]].
  destruct (AppJs_expiredTodo_logs env w) as [l1 [C1 L1]].
  set (w1 := snd (AppJs.expiredTodo env w)) in *.
  destruct (AppJs_deleteTodo_world env w1) as [_ [_ [e2 [E2 O2]]]].
  destruct (AppJs_deleteTodo_logs env w1) as [l2 [C2 L2]].
  exists e1, e2, (l1 ++ l2).
  split.
  { apply new_requests_app. rewrite E2, E1, <- app_assoc. reflexivity. }
  split; [exact O1|]. split.
  { intros q Hq. destruct (O2 q Hq) as [k [-> _]]. now exists k. }
  split; [rewrite C2, C1, <- app_assoc; reflexivity|].
  rewrite length_app. lia.
Qed.

(** ** The life of a successor *)

Lemma filter_idempotent {A} (p : A -> bool) (l : list A) :
  filter p (filter p l) = filter p l.
Proof.
  induction l as [|x l IH]; [reflexivity|].
  simpl. destruct (p x) eqn:E; simpl; [rewrite E, IH|]; auto.
Qed.

Lemma successor_is_carried_over (t succ : Todo) :
  ToBoolean (carryOver t) = true -> open_items t <> [] ->
  successor_of t succ ->
  ToBoolean (carryOver succ) = true /\ open_items succ = open_items t
  /\ contentList (comment succ) = open_items t.
Proof.
  intros C O [_ [_ [_ [Hc [_ [_ [_ Hm]]]]]]].
  split; [now rewrite Hc|].
  unfold open_items at 1. rewrite Hm. cbn [contentList].
  split; [apply filter_idempotent|reflexivity].
Qed.

Lemma AppTs_turn_put (t : Todo) env w items w' succ cond :
  AppTs.expired_turn t env w = (Normal items, w') ->
  In (Put succ cond) items ->
  ToBoolean (carryOver t) = true /\ open_items t <> []
  /\ successor_of t succ
  /\ targetAt succ = toISOString (clock env (reads w) + 3 * msPerDay).
Proof.
  intros E Hin.
  destruct (AppTs_expired_turn_cases t env w) as [[C [O X]]|[_ X]];
    rewrite X in E; injection E as <- <-.
  - destruct Hin as [Y|[Y|[]]]; [discriminate Y|]. injection Y as <- <-.
    split; [exact C|]. split; [exact O|]. split; [repeat split|reflexivity].
  - destruct Hin as [Y|[]]. discriminate Y.
Qed.

Lemma AppJs_turn_put (u : DateString) (t : Todo) env w items w' succ cond :
  AppJs.transactItems_of u t env w = (Normal items, w') ->
  In (Put succ cond) items ->
  ToBoolean (carryOver t) = true /\ open_items t <> []
  /\ successor_of t succ
  /\ targetAt succ = toISOString (clock env (reads w) + 3 * msPerDay).
Proof.
  intros E Hin.
  destruct (AppJs_transactItems_of_cases u t env w) as [[C [O X]]|[_ X]];
    rewrite X in E; injection E as <- <-.
  - destruct Hin as [Y|[Y|[]]]; [discriminate Y|]. injection Y as <- <-.
    split; [exact C|]. split; [exact O|]. split; [repeat split|reflexivity].
  - destruct Hin as [Y|[]]. discriminate Y.
Qed.

(** X14.  A successor is itself carried over: it keeps the truthy
    [carryOver] and its sub-items are all open, so when it expires in turn,
    in any run of either handler, the turn builds a create again, with the
    same comment, title and url. *)
Theorem X14_successor_carries_over_again (env : Env) (w : World) (t : Todo)
    (u : DateString) :
  (forall items w' succ cond,
      AppTs.expired_turn t env w = (Normal items, w') ->
      In (Put succ cond) items ->
      forall env2 w2, exists succ2 cond2 w3,
          AppTs.expired_turn succ env2 w2
          = (Normal [Update (id succ) Expired; Put succ2 cond2], w3)
          /\ comment succ2 = comment succ
          /\ title succ2 = title succ /\ url succ2 = url succ)
  /\ (forall items w' succ cond,
      AppJs.transactItems_of u t env w = (Normal items, w') ->
      In (Put succ cond) items ->
      forall u2 env2 w2, exists succ2 cond2 w3,
          AppJs.transactItems_of u2 succ env2 w2
          = (Normal [Update (id succ) Expired; Put succ2 cond2], w3)
          /\ comment succ2 = comment succ
          /\ title succ2 = title succ /\ url succ2 = url succ).
Proof.
  assert (K : forall succ, ToBoolean (carryOver t) = true -> open_items t <> [] ->
                           successor_of t succ ->
                           ToBoolean (carryOver succ) = true
                           /\ open_items succ <> []
                           /\ mkComment (commentType (comment succ))
                                        (freeComment (comment succ))
                                        (open_items succ)
                              = comment succ).
  { intros succ C O S.
    destruct (successor_is_carried_over t succ C O S) as [C' [O' L]].
    split; [exact C'|]. split; [now rewrite O'|].
    rewrite O', <- L. destruct (comment succ); reflexivity. }
  split.
  - intros items w' succ cond E Hin env2 w2.
    destruct (AppTs_turn_put t env w items w' succ cond E Hin) as [C [O [S _]]].
    destruct (K succ C O S) as [C' [O' M]].
    destruct (AppTs_expired_turn_cases succ env2 w2) as [[_ [_ X]]|[[X|X] _]];
      [|congruence|congruence].
    eexists; eexists; eexists. split; [exact X|]. cbn.
    split; [exact M|]. split; reflexivity.
  - intros items w' succ cond E Hin u2 env2 w2.
    destruct (AppJs_turn_put u t env w items w' succ cond E Hin) as [C [O [S _]]].
    destruct (K succ C O S) as [C' [O' M]].
    destruct (AppJs_transactItems_of_cases u2 succ env2 w2) as [[_ [_ X]]|[[X|X] _]];
      [|congruence|congruence].
    eexists; eexists; eexists. split; [exact X|]. cbn.
    split; [exact M|]. split; reflexivity.
Qed.

(** X14 on the successor of a carried-over record, expiring later. *)
Lemma X14_successor_carries_over_again_witness :
  exists items w' succ cond,
    AppTs.expired_turn Sample.recurring Sample.steady (Sample.start [])
    = (Normal items, w')
    /\ In (Put succ cond) items
    /\ exists succ2 cond2 w3,
        AppTs.expired_turn succ Sample.ticking (Sample.start [])
        = (Normal [Update (id succ) Expired; Put succ2 cond2], w3)
        /\ comment succ2 = comment succ
        /\ title succ2 = title succ /\ url succ2 = url succ.
Proof.
  eexists; eexists; eexists; eexists.
  split; [vm_compute; reflexivity|]. split; [right; left; reflexivity|].
  eapply (proj1 (X14_successor_carries_over_again Sample.steady (Sample.start [])
                   Sample.recurring (Iso 0))).
  - vm_compute. reflexivity.
  - right. left. reflexivity.
Defined.

(** X15.  A successor is due 3 days after the clock reading taken for it,
    so neither handler selects it for expiry in a run whose clock reads
    less than 10 days after that reading: the filter of app.ts rejects it
    and the reducer of app.js leaves it out. *)
Theorem X15_successor_rests_ten_days (env : Env) (w : World) (t : Todo)
    (u : DateString) (later : Z) :
  later < clock env (reads w) + 10 * msPerDay ->
  (forall items w' succ cond,
      AppTs.expired_turn t env w = (Normal items, w') ->
      In (Put succ cond) items ->
      AppTs.expired_filter (setDate_plus later (- flagDeleteDate)) succ = false)
  /\ (forall items w' succ cond acc,
      AppJs.transactItems_of u t env w = (Normal items, w') ->
      In (Put succ cond) items ->
      AppJs.expired_reducer (setDate_plus later (- flagDeleteDate)) acc succ = acc).
Proof.
  intros L. split.
  - intros items w' succ cond E Hin.
    destruct (AppTs_turn_put t env w items w' succ cond E Hin) as [_ [_ [_ T]]].
    rewrite expired_filter_after, T.
    assert (A : after (setDate_plus later (- flagDeleteDate))
                      (toISOString (clock env (reads w) + 3 * msPerDay)) = true).
    { apply Z.ltb_lt. unfold setDate_plus, flagDeleteDate, msPerDay in *. lia. }
    rewrite A. apply andb_false_r.
  - intros items w' succ cond acc E Hin.
    destruct (AppJs_turn_put u t env w items w' succ cond E Hin) as [_ [_ [_ T]]].
    unfold AppJs.expired_reducer. rewrite lt0_minus_before, T.
    assert (B : before (setDate_plus later (- flagDeleteDate))
                       (toISOString (clock env (reads w) + 3 * msPerDay)) = false).
    { apply Z.ltb_ge. unfold setDate_plus, flagDeleteDate, msPerDay in *. lia. }
    rewrite B. reflexivity.
Qed.

(** X15 with a later reading 9 days after the successor was built. *)
Lemma X15_successor_rests_ten_days_witness :
  Sample.now + Sample.days 9 < clock Sample.steady 0 + 10 * msPerDay
  /\ exists items w' succ cond,
      AppTs.expired_turn Sample.recurring Sample.steady (Sample.start [])
      = (Normal items, w')
      /\ In (Put succ cond) items
      /\ AppTs.expired_filter
           (setDate_plus (Sample.now + Sample.days 9) (- flagDeleteDate)) succ
         = false.
Proof.
  assert (L : Sample.now + Sample.days 9 < clock Sample.steady 0 + 10 * msPerDay)
    by (vm_compute; reflexivity).
  split; [exact L|].
  eexists; eexists; eexists; eexists.
  split; [vm_compute; reflexivity|]. split; [right; left; reflexivity|].
  eapply (proj1 (X15_successor_rests_ten_days Sample.steady (Sample.start [])
                   Sample.recurring (Iso 0) (Sample.now + Sample.days 9) L)).
  - vm_compute. reflexivity.
  - right. left. reflexivity.
Defined.

(** ** A run of app.ts the store has no reason to refuse *)

Lemma get_absent (t : list Todo) (k : string) :
  ~ In k (ids t) -> get t k = None.
Proof.
  unfold get, ids. induction t as [|r t IH]; intros N; [reflexivity|].
  cbn [find]. destruct (String.eqb (id r) k) eqn:E.
  - exfalso. apply N. left. now apply String.eqb_eq in E.
  - apply IH. intros H. apply N. now right.
Qed.

Lemma turns_draws_bound (env : Env) l w items w' :
  turns env l w items w' -> (draws w' <= draws w + List.length l)%nat.
Proof.
  induction 1 as [w|t l w items w' H T IH|t l w succ0 cond0 w1 items w' H T IH];
    cbn [List.length]; [lia|lia|].
  destruct (AppTs_expired_turn_cases t env w) as [[_ [_ E]]|[_ E]];
    rewrite E in H; inversion H; subst; clear H.
  cbn [draws] in IH. lia.
Qed.

Lemma AppTs_draws_bound (env : Env) (w : World) todoItems batch w' :
  AppTs.createTransactItems todoItems env w = (Normal batch, w') ->
  (draws w' <= draws w + List.length todoItems)%nat.
Proof.
  intros E.
  destruct (createTransactItems_structure env w todoItems)
    as [expired [w1 [deletes [w2 [_ [T [D [_ [E' _]]]]]]]]].
  rewrite E in E'. injection E' as _ Hw.
  rewrite createDeleteTransactItems_eq in D. injection D as _ D2.
  apply turns_draws_bound in T. cbn [new_Date snd draws] in T.
  pose proof (filter_length_le
                (AppTs.expired_filter (clock env (reads w) - 7 * msPerDay))
                todoItems) as F.
  rewrite Hw, <- D2. cbn [new_Date snd draws]. lia.
Qed.

(** X16.  When the store serves the scan and does not refuse the
    transaction, the ids of the table are pairwise different and the next
    identifiers of [uuid] (as many as the table has items) differ from one
    another and from the ids of the table, a run of app.ts answers 200: the
    batch it builds passes the checks of the store (one operation per key,
    every create on an absent id) and is applied as a whole. *)
Theorem X16_well_formed_run_is_accepted (env : Env) (w : World) :
  reply env (calls w) = Served ->
  reply env (S (calls w)) <> Refused ->
  NoDup (ids (table w)) ->
  (forall i j, (draws w <= i < j)%nat ->
               (j < draws w + List.length (table w))%nat ->
               uuid env i <> uuid env j) ->
  (forall j, (draws w <= j < draws w + List.length (table w))%nat ->
             ~ In (uuid env j) (ids (table w))) ->
  exists batch w1 w',
    AppTs.createTransactItems (table w) env (sent ReqScan w) = (Normal batch, w1)
    /\ AppTs.lambdaHandler env w = (Normal (mkResponse 200), w')
    /\ console w' = console w
    /\ table w' = match batch with
                  | [] => table w
                  | _ => fold_left apply_item batch (table w)
                  end.
Proof.
  intros R R2 ND Inj Fresh.
  destruct (AppTs_lambdaHandler_cases env w)
    as [[R' _]|[[R' _]|[_ [batch [w1 [C [[S1 [S2 S3]] H]]]]]]]; try congruence.
  cbn [table requests console sent] in S1, S2, S3.
  exists batch, w1.
  pose proof (AppTs_draws_bound env (sent ReqScan w) (table w) batch w1 C) as Bd.
  cbn [draws sent] in Bd.
  assert (D : distinct (map key_of batch) = true).
  { apply (AppTs_batch_keys_distinct env (sent ReqScan w) (table w) batch w1 C ND).
    - intros i j Hij Hj. cbn [draws sent] in Hij. apply Inj; [exact Hij|lia].
    - intros j Hj. cbn [draws sent] in Hj. apply Fresh. lia. }
  assert (K : forallb (condition_ok (table w1)) batch = true).
  { apply forallb_forall. intros item Hin. destruct item as [k v|s c|k];
      try reflexivity.
    destruct (AppTs_batch_puts env (sent ReqScan w) (table w) batch w1 C s c Hin)
      as [-> [t [k [j [_ [_ [_ [_ [Hj [Ej _]]]]]]]]]].
    cbn [condition_ok holds]. rewrite S1, get_absent; [reflexivity|].
    rewrite Ej. apply Fresh. cbn [draws sent] in Hj. lia. }
  destruct H as [[B E]|[[e [T E]]|[T E]]].
  - eexists. split; [exact C|]. split; [exact E|].
    subst batch. split; [exact S3|exact S1].
  - exfalso. unfold transactWrite in T.
    assert (Rc : refused (reply env (calls w1)) = false).
    { unfold calls. rewrite S2, length_app. cbn. rewrite Nat.add_1_r.
      fold (calls w). destruct (reply env (S (calls w))); cbn; congruence. }
    rewrite Rc, D, K in T. cbn [negb] in T.
    destruct batch; [|discriminate T].
    unfold AppTs.lambdaHandler in E.
    rewrite (bind_normal _ _ _ _ _ _
               (eq_trans (getTodoItems_cases env w)
                         ltac:(rewrite R; reflexivity))) in E.
    rewrite (bind_normal _ _ _ _ _ _ C) in E. cbn in E.
    injection E as X _. discriminate X.
  - eexists. split; [exact C|]. split; [exact E|].
    cbn [console table with_table sent]. split; [exact S3|].
    rewrite S1. destruct batch as [|i l]; [|reflexivity].
    destruct (transactWrite_cases [] env w1) as [[e X]|[_ [X _]]];
      [rewrite X in T; discriminate T|now contradiction X].
Qed.

(** X16 on a table of three items. *)
Lemma X16_well_formed_run_is_accepted_witness :
  NoDup (ids [Sample.overdue; Sample.recurring; Sample.flagged_a_month_ago])
  /\ exists batch w1 w',
      AppTs.createTransactItems
        [Sample.overdue; Sample.recurring; Sample.flagged_a_month_ago]
        Sample.ticking
        (sent ReqScan
           (Sample.start [Sample.overdue; Sample.recurring; Sample.flagged_a_month_ago]))
      = (Normal batch, w1)
      /\ AppTs.lambdaHandler Sample.ticking
           (Sample.start [Sample.overdue; Sample.recurring; Sample.flagged_a_month_ago])
         = (Normal (mkResponse 200), w')
      /\ console w' = []
      /\ table w' = match batch with
                    | [] => [Sample.overdue; Sample.recurring; Sample.flagged_a_month_ago]
                    | _ => fold_left apply_item batch
                             [Sample.overdue; Sample.recurring; Sample.flagged_a_month_ago]
                    end.
Proof.
  assert (ND : NoDup (ids [Sample.overdue; Sample.recurring; Sample.flagged_a_month_ago]))
    by (apply distinct_NoDup; reflexivity).
  split; [exact ND|].
  apply (X16_well_formed_run_is_accepted Sample.ticking
           (Sample.start [Sample.overdue; Sample.recurring; Sample.flagged_a_month_ago])).
  - reflexivity.
  - discriminate.
  - exact ND.
  - intros i j Hij Hj. cbn in Hij, Hj.
    assert (i = 0 /\ j = 1 \/ i = 0 /\ j = 2 \/ i = 1 /\ j = 2)%nat
      as [[-> ->] | [[-> ->] | [-> ->]]] by lia; discriminate.
  - intros j Hj. cbn in Hj.
    assert (j = 0 \/ j = 1 \/ j = 2)%nat as [-> | [-> | ->]] by lia;
      cbn; intros [X|[X|[X|[]]]]; discriminate X.
Defined.

(** ** The table name and the client *)

(** X17.  The table name after [setTableName] on a fresh module.  app.ts
    takes the [tableName] variable exactly when the process does not run
    under AWS_SAM_LOCAL and the variable is set and not empty, and keeps
    "TodoTable" in every other case, so its name is never undefined nor
    empty; calling [setTableName] again changes nothing.  app.js takes
    "TodoTable" under AWS_SAM_LOCAL and otherwise the variable as it is,
    whatever the name was before.  Hence the two handlers work on the same
    table exactly when AWS_SAM_LOCAL is set or the variable is set and not
    empty; otherwise app.ts falls back to "TodoTable" while app.js sends its
    queries with an undefined or empty [TableName].  Both use the local
    client options exactly under AWS_SAM_LOCAL. *)
Theorem X17_table_name_after_setTableName (process_env : ProcessEnv)
    (previous : option string) :
  (forall name,
      AppTsConfig.getTableName
        (AppTsConfig.setTableName process_env AppTsConfig.tableName) = Some name
      <-> (env_truthy (process_env "AWS_SAM_LOCAL") = false
           /\ process_env "tableName" = Some name /\ name <> "")
          \/ (name = "TodoTable"
              /\ (env_truthy (process_env "AWS_SAM_LOCAL") = true
                  \/ process_env "tableName" = None
                  \/ process_env "tableName" = Some "")))
  /\ (exists name,
        AppTsConfig.getTableName
          (AppTsConfig.setTableName process_env AppTsConfig.tableName) = Some name
        /\ name <> "")
  /\ AppTsConfig.setTableName process_env
       (AppTsConfig.setTableName process_env previous)
     = AppTsConfig.setTableName process_env previous
  /\ AppJsConfig.getTableName (AppJsConfig.setTableName process_env previous)
     = (if env_truthy (process_env "AWS_SAM_LOCAL") then Some "TodoTable"
        else process_env "tableName")
  /\ (AppTsConfig.getTableName
        (AppTsConfig.setTableName process_env AppTsConfig.tableName)
      = AppJsConfig.getTableName (AppJsConfig.setTableName process_env previous)
      <-> env_truthy (process_env "AWS_SAM_LOCAL") = true
          \/ env_truthy (process_env "tableName") = true)
  /\ (env_truthy (process_env "AWS_SAM_LOCAL") = false ->
      env_truthy (process_env "tableName") = false ->
      AppTsConfig.getTableName
        (AppTsConfig.setTableName process_env AppTsConfig.tableName)
      = Some "TodoTable"
      /\ (TableName (AppJsConfig.createGetParams
                       (AppJsConfig.setTableName process_env previous)) = None
          \/ TableName (AppJsConfig.createGetParams
                          (AppJsConfig.setTableName process_env previous))
             = Some ""))
  /\ (TableName (AppJsConfig.createGetParams
                   (AppJsConfig.setTableName process_env previous)) = None
      <-> env_truthy (process_env "AWS_SAM_LOCAL") = false
          /\ process_env "tableName" = None)
  /\ (AppJsConfig.getDynamoClient process_env = Some local_options
      <-> env_truthy (process_env "AWS_SAM_LOCAL") = true)
  /\ AppTsConfig.getDocumentClient process_env
     = AppJsConfig.getDynamoClient process_env.
Proof.
  unfold AppTsConfig.getTableName, AppTsConfig.setTableName, AppTsConfig.tableName,
    AppJsConfig.getTableName, AppJsConfig.setTableName, AppJsConfig.createGetParams,
    AppJsConfig.getDynamoClient, AppTsConfig.getDocumentClient.
  cbn [TableName].
  assert (NE : "TodoTable" <> "") by discriminate.
  destruct (env_truthy (process_env "AWS_SAM_LOCAL")) eqn:L; cbn [negb andb].
  - split.
    { intros name. split.
      - intros X. injection X as <-. right. split; [reflexivity|now left].
      - intros [[X _]|[-> _]]; [discriminate X|reflexivity]. }
    split; [exists "TodoTable"; now split|].
    split; [reflexivity|]. split; [reflexivity|].
    split; [split; [now left|reflexivity]|].
    split; [discriminate|].
    split; [split; [discriminate|intros [X _]; discriminate X]|].
    split; [tauto|reflexivity].
  - destruct (process_env "tableName") as [n|] eqn:T; cbn [env_truthy].
    + destruct (String.eqb n "") eqn:E; cbn [negb andb].
      * apply String.eqb_eq in E. subst n.
        split.
        { intros name. split.
          - intros X. injection X as <-. right. split; [reflexivity|]. now right; right.
          - intros [[_ [X N]]|[-> _]]; [|reflexivity].
            injection X as <-. now contradiction N. }
        split; [exists "TodoTable"; now split|].
        split; [reflexivity|]. split; [reflexivity|].
        split; [split; [discriminate|intros [X|X]; discriminate X]|].
        split; [intros _ _; split; [reflexivity|now right]|].
        split; [split; [discriminate|intros [_ X]; discriminate X]|].
        split; [split; discriminate|reflexivity].
      * assert (N : n <> "") by (now apply String.eqb_neq).
        split.
        { intros name. split.
          - intros X. injection X as <-. left. now repeat split.
          - intros [[_ [X _]]|[-> [X|[X|X]]]]; [exact X|discriminate X|discriminate X|].
            injection X as ->. discriminate E. }
        split; [exists n; now split|].
        split; [reflexivity|].
        split; [reflexivity|].
        split; [split; [now right|reflexivity]|].
        split; [discriminate|].
        split; [split; [discriminate|intros [_ X]; discriminate X]|].
        split; [split; discriminate|reflexivity].
    + split.
      { intros name. split.
        - intros X. injection X as <-. right. split; [reflexivity|]. now right; left.
        - intros [[_ [X _]]|[-> _]]; [discriminate X|reflexivity]. }
      split; [exists "TodoTable"; now split|].
      split; [reflexivity|]. split; [reflexivity|].
      split; [split; [discriminate|intros [X|X]; discriminate X]|].
      split; [intros _ _; split; [reflexivity|now left]|].
      split; [split; [now split|reflexivity]|].
      split; [split; discriminate|reflexivity].
Qed.

(** X17 on three processes: a deployed Lambda with its table name set, one
    without the variable, and a local run. *)
Example table_names_of_three_processes :
  AppTsConfig.setTableName Sample2.deployed AppTsConfig.tableName = Some "Todo-prod"
  /\ AppJsConfig.setTableName Sample2.deployed AppJsConfig.tableName = Some "Todo-prod"
  /\ AppTsConfig.setTableName Sample2.unconfigured AppTsConfig.tableName
     = Some "TodoTable"
  /\ AppJsConfig.setTableName Sample2.unconfigured AppJsConfig.tableName = None
  /\ AppTsConfig.setTableName Sample2.sam_local AppTsConfig.tableName
     = Some "TodoTable"
  /\ AppJsConfig.setTableName Sample2.sam_local AppJsConfig.tableName
     = Some "TodoTable".
Proof. vm_compute. repeat split. Qed.
